(** * Estoque-Certo: the authentication and authorization core

    A shallow embedding of [models.py], [gestao_usuarios.py], [main_auth.py]
    and the password hasher, with the properties of the specification that
    concern them.

    Conventions of the embedding.
    - A Python [str] is a [string] whose characters are the code points
      0..255 (the Latin-1 block of Unicode); [len], [strip], [lower],
      [isdigit], [split] and [int] follow CPython on that range.
    - A table is the list of its rows in insertion order; [.first()] is
      the first row the filter keeps.  Column equality is exact string
      equality.
    - An operation reads what the operator types as arguments (one raw line
      per [input()] call, in the order of the prompts) and returns the
      message it prints last together with the value it returns.
    - [db.commit()] either installs the pending changes or raises; which
      one is decided by the session's fault schedule.  [db.rollback()]
      drops the pending changes.
    - A Boolean column holds [True] or [False] (the code writes nothing
      else), and the clock readings of one operation are one instant. *)

From Stdlib Require Import ZArith NArith List String Ascii Bool Lia.
Import ListNotations.
Open Scope string_scope.
Open Scope Z_scope.

(** ** Python strings *)

Module Py.

Definition ord (c : ascii) : N := N_of_ascii c.

(** [str.isspace] on one character: TAB..CR, FS..US, space, NEL, NBSP. *)
Definition isspace (c : ascii) : bool :=
  let n := ord c in
  ((9 <=? n) && (n <=? 13) || (28 <=? n) && (n <=? 32)
   || (n =? 133) || (n =? 160))%N.

Fixpoint lstrip (s : string) : string :=
  match s with
  | EmptyString => EmptyString
  | String c r => if isspace c then lstrip r else s
  end.

Fixpoint rstrip (s : string) : string :=
  match s with
  | EmptyString => EmptyString
  | String c r =>
      match rstrip r with
      | EmptyString => if isspace c then EmptyString else String c EmptyString
      | r' => String c r'
      end
  end.

(** [s.strip()] *)
Definition strip (s : string) : string := rstrip (lstrip s).

(** [str.lower] on one character: A..Z and the accented capitals
    U+00C0..U+00DE (the multiplication sign U+00D7 apart) move up by 32. *)
Definition lower_char (c : ascii) : ascii :=
  let n := ord c in
  if ((65 <=? n) && (n <=? 90)
      || (192 <=? n) && (n <=? 222) && negb (n =? 215))%N
  then ascii_of_N (n + 32) else c.

Fixpoint lower (s : string) : string :=
  match s with
  | EmptyString => EmptyString
  | String c r => String (lower_char c) (lower r)
  end.

(** [str.isdigit] on one character: 0..9 and the superscripts
    U+00B2, U+00B3, U+00B9. *)
Definition isdigit_char (c : ascii) : bool :=
  let n := ord c in
  ((48 <=? n) && (n <=? 57) || (n =? 178) || (n =? 179) || (n =? 185))%N.

Fixpoint all_chars (f : ascii -> bool) (s : string) : bool :=
  match s with
  | EmptyString => true
  | String c r => f c && all_chars f r
  end.

(** [s.isdigit()]: at least one character, and every character a digit. *)
Definition isdigit (s : string) : bool :=
  match s with
  | EmptyString => false
  | _ => all_chars isdigit_char s
  end.

(** [c in s] for a one-character [c]. *)
Fixpoint contains (c : ascii) (s : string) : bool :=
  match s with
  | EmptyString => false
  | String d r => Ascii.eqb c d || contains c r
  end.

(** [len(s)] *)
Definition len (s : string) : Z := Z.of_nat (String.length s).

(** [s.split(sep)] for a one-character separator: never empty. *)
Fixpoint split (sep : ascii) (s : string) : list string :=
  match s with
  | EmptyString => [EmptyString]
  | String c r =>
      if Ascii.eqb c sep then EmptyString :: split sep r
      else match split sep r with
           | h :: t => String c h :: t
           | [] => [String c EmptyString]
           end
  end.

Definition isdecimal_char (c : ascii) : bool :=
  let n := ord c in ((48 <=? n) && (n <=? 57))%N.

Definition digit_value (c : ascii) : Z := Z.of_N (ord c) - 48.

(** The digits of an [int] literal: decimal digits, single underscores
    between them.  [prev] says that the previous character was a digit. *)
Fixpoint int_digits (s : string) (acc : Z) (prev : bool) : option Z :=
  match s with
  | EmptyString => if prev then Some acc else None
  | String c r =>
      if isdecimal_char c then int_digits r (10 * acc + digit_value c) true
      else if Ascii.eqb c "_" && prev then int_digits r acc false
      else None
  end.

(** [int(s)]: surrounding whitespace dropped, an optional sign, digits.
    [None] stands for [ValueError].  (CPython also refuses a literal of
    more than 4300 digits; the model reads it.) *)
Definition int (s : string) : option Z :=
  match strip s with
  | String "-" r => option_map Z.opp (int_digits r 0 false)
  | String "+" r => int_digits r 0 false
  | t => int_digits t 0 false
  end.

(** [s.encode('utf-8')] on code points below 256: one byte below 128, two
    bytes from there on. *)
Fixpoint encode_utf8 (s : string) : list Byte.byte :=
  match s with
  | EmptyString => []
  | String c r =>
      let n := ord c in
      (if (n <? 128)%N then [byte_of_ascii c]
       else [byte_of_ascii (ascii_of_N (192 + N.shiftr n 6));
             byte_of_ascii (ascii_of_N (128 + N.land n 63))])
      ++ encode_utf8 r
  end.

(** The text of a literal of the Python source: this file is UTF-8, so an
    accented letter of a literal arrives as two bytes, which [txt] folds
    back into its code point. *)
Fixpoint txt (s : string) : string :=
  match s with
  | EmptyString => EmptyString
  | String c r =>
      match r with
      | String d r' =>
          if ((ord c =? 194) || (ord c =? 195))%N
          then String (ascii_of_N (N.shiftl (N.land (ord c) 31) 6
                                   + N.land (ord d) 63)) (txt r')
          else String c (txt r)
      | EmptyString => String c EmptyString
      end
  end.

End Py.

(** ** The tables ([models.py]) *)

(** A [DateTime] is the instant it denotes, as an integer. *)
Definition DateTime := Z.

Module Empresa.
Record t := mk {
  id : Z;
  nome : string;
  cnpj : string;
  segmento : string;
  ativa : bool;
  data_cadastro : option DateTime;
  data_atualizacao : option DateTime
}.
End Empresa.

Module Usuario.
Record t := mk {
  id : Z;
  empresa_id : Z;
  nome : string;
  email : string;
  senha_hash : string;
  ativo : bool;
  is_admin : bool;
  ultimo_login : option DateTime;
  data_cadastro : option DateTime;
  data_atualizacao : option DateTime
}.
End Usuario.

Module Permissao.
Record t := mk {
  id : Z;
  codigo : string;
  nome : string;
  descricao : string;
  ativa : bool
}.
End Permissao.

(** The database: the three tables and the association table
    [usuario_permissoes], whose rows are (usuario_id, permissao_id). *)
Record Db := mkDb {
  empresas : list Empresa.t;
  usuarios : list Usuario.t;
  permissoes : list Permissao.t;
  usuario_permissoes : list (Z * Z)
}.

(** The id an insert gives a row with no id of its own: one more than the
    largest in use, 1 in an empty table. *)
Definition proximo_id (ids : list Z) : Z := 1 + fold_right Z.max 0 ids.

(** [usuario.empresa]: the many-to-one side, followed through the key. *)
Definition empresa_de (db : Db) (u : Usuario.t) : option Empresa.t :=
  find (fun e => Empresa.id e =? Usuario.empresa_id u) (empresas db).

(** The permission ids the association table holds for a user. *)
Definition ids_concedidos (db : Db) (u : Usuario.t) : list Z :=
  map snd (filter (fun r => fst r =? Usuario.id u) (usuario_permissoes db)).

(** [usuario.permissoes]: the many-to-many side, joined through
    [usuario_permissoes]. *)
Definition permissoes_de (db : Db) (u : Usuario.t) : list Permissao.t :=
  flat_map
    (fun pid => filter (fun p => Permissao.id p =? pid) (permissoes db))
    (ids_concedidos db u).

(** [db.add(empresa)], [db.add(usuario)], [db.add(permissao)] *)
Definition add_empresa (db : Db) (e : Empresa.t) : Db :=
  mkDb (empresas db ++ [e]) (usuarios db) (permissoes db)
       (usuario_permissoes db).

Definition add_usuario (db : Db) (u : Usuario.t) : Db :=
  mkDb (empresas db) (usuarios db ++ [u]) (permissoes db)
       (usuario_permissoes db).

Definition add_permissao (db : Db) (p : Permissao.t) : Db :=
  mkDb (empresas db) (usuarios db) (permissoes db ++ [p])
       (usuario_permissoes db).

(** [usuario.permissoes.clear()] *)
Definition limpa_permissoes (db : Db) (u : Usuario.t) : Db :=
  mkDb (empresas db) (usuarios db) (permissoes db)
       (filter (fun r => negb (fst r =? Usuario.id u)) (usuario_permissoes db)).

(** [usuario.permissoes.append(p)] *)
Definition anexa_permissao (db : Db) (u : Usuario.t) (p : Permissao.t) : Db :=
  mkDb (empresas db) (usuarios db) (permissoes db)
       (usuario_permissoes db ++ [(Usuario.id u, Permissao.id p)]).

(** [usuario.permissoes = ps] *)
Definition atribui_permissoes (db : Db) (u : Usuario.t)
    (ps : list Permissao.t) : Db :=
  fold_left (fun d p => anexa_permissao d u p) ps (limpa_permissoes db u).

(** [usuario.ultimo_login = t] as the flush writes it: the UPDATE of the
    rows with the user's key, which also stamps [data_atualizacao]
    ([onupdate=datetime.utcnow]). *)
Definition marca_login (t : DateTime) (u : Usuario.t) : Usuario.t :=
  Usuario.mk (Usuario.id u) (Usuario.empresa_id u) (Usuario.nome u)
    (Usuario.email u) (Usuario.senha_hash u) (Usuario.ativo u)
    (Usuario.is_admin u) (Some t) (Usuario.data_cadastro u) (Some t).

Definition atualiza_login (db : Db) (u : Usuario.t) (t : DateTime) : Db :=
  mkDb (empresas db)
       (map (fun x => if Usuario.id x =? Usuario.id u then marca_login t x
                      else x) (usuarios db))
       (permissoes db) (usuario_permissoes db).

(** ** The session: commits, faults and exceptions *)

Inductive Excecao :=
| ValueError          (* int() of a line that is no number *)
| AttributeError      (* an attribute of None *)
| ErroDeBanco.        (* raised by db.commit() *)

Inductive Res (A : Type) :=
| Val (a : A)
| Levanta (e : Excecao).
Arguments Val {A} a.
Arguments Levanta {A} e.

(** [banco] is what the database holds (the committed state); [falhas]
    schedules the coming commits, [true] for one that raises; past its end
    every commit goes through. *)
Record Sessao := mkSessao {
  banco : Db;
  falhas : list bool
}.

Definition M (A : Type) : Type := Sessao -> Res A * Sessao.

Definition ret {A} (a : A) : M A := fun s => (Val a, s).

Definition bind {A B} (m : M A) (k : A -> M B) : M B :=
  fun s => match m s with
           | (Val a, s') => k a s'
           | (Levanta e, s') => (Levanta e, s')
           end.

Definition levanta {A} (e : Excecao) : M A := fun s => (Levanta e, s).

(** [try: m  except ...: h e] *)
Definition tenta {A} (m : M A) (h : Excecao -> M A) : M A :=
  fun s => match m s with
           | (Val a, s') => (Val a, s')
           | (Levanta e, s') => h e s'
           end.

(** The state a query sees when an operation starts. *)
Definition consulta : M Db := fun s => (Val (banco s), s).

(** [db.commit()] of the pending state [pendente]. *)
Definition commit (pendente : Db) : M unit :=
  fun s => match falhas s with
           | true :: fs => (Levanta ErroDeBanco, mkSessao (banco s) fs)
           | false :: fs => (Val tt, mkSessao pendente fs)
           | [] => (Val tt, mkSessao pendente [])
           end.

Declare Scope sessao_scope.
Delimit Scope sessao_scope with sessao.
Notation "x <- m ;; k" := (bind m (fun x => k))
  (at level 61, m at next level, right associativity) : sessao_scope.
Notation "m ;;; k" := (bind m (fun _ => k))
  (at level 61, right associativity) : sessao_scope.
Open Scope sessao_scope.

(** A session over [db] in which no commit fails. *)
Definition sem_falhas (db : Db) : Sessao := mkSessao db [].

(** ** What the operations print and return *)

Inductive Mensagem :=
| NomeEmpresaCurto            (* Erro: Nome da empresa deve ter pelo menos 3 caracteres! *)
| CnpjInvalido                (* Erro: CNPJ deve conter exatamente 14 digitos! *)
| CnpjJaCadastrado            (* Erro: Ja existe uma empresa cadastrada com este CNPJ! *)
| ErroAoCadastrarEmpresa      (* Erro ao cadastrar empresa: ... *)
| NenhumaEmpresaAtiva         (* Nenhuma empresa ativa cadastrada! *)
| EmpresaNaoEncontrada (empresa_id : Z)  (* Erro: Empresa com ID ... nao encontrada! *)
| NomeCurto                   (* Erro: Nome deve ter pelo menos 3 caracteres! *)
| EmailInvalido               (* Erro: Email invalido! *)
| EmailJaCadastrado           (* Erro: Ja existe um usuario com este email! *)
| SenhaCurta                  (* Erro: Senha deve ter no minimo 6 caracteres! *)
| SenhasNaoCoincidem          (* Erro: As senhas nao coincidem! *)
| NumeroInvalido              (* Erro: Digite um numero valido! *)
| ErroAoCadastrarUsuario      (* Erro ao cadastrar usuario: ... *)
| UsuarioNaoEncontrado (usuario_id : Z)  (* Erro: Usuario com ID ... nao encontrado! *)
| UsuarioAdministrador        (* Usuario ... e administrador e tem acesso a todos os modulos. *)
| PermissoesRemovidas         (* Todas as permissoes foram removidas. *)
| AcessoConcedido             (* Acesso concedido a todos os modulos! *)
| PermissoesConfiguradas      (* PERMISSOES CONFIGURADAS COM SUCESSO! *)
| NumerosInvalidos            (* Erro: Digite numeros validos separados por virgula! *)
| ErroAoConfigurarPermissoes  (* Erro ao configurar permissoes: ... *)
| EmailOuSenhaIncorretos      (* Erro: Email ou senha incorretos! *)
| UsuarioInativo              (* Erro: Usuario inativo. Contate o administrador. *)
| EmpresaInativa.             (* Erro: Empresa inativa. Contate o suporte. *)

(** The value a function returns: the object, or [None] after the message. *)
Inductive Retorno (A : Type) :=
| Devolve (a : A)
| Nada (m : Mensagem).
Arguments Devolve {A} a.
Arguments Nada {A} m.

(** ** Authorization ([models.py], [main_auth.py]) *)

(** [Usuario.tem_permissao(self, codigo_modulo)] *)
Definition tem_permissao (db : Db) (self : Usuario.t)
    (codigo_modulo : string) : bool :=
  if Usuario.is_admin self then true
  else existsb
         (fun p => (Permissao.codigo p =? codigo_modulo)%string
                   && Permissao.ativa p)
         (permissoes_de db self).

(** [verificar_permissao(codigo_modulo)], with the global [usuario_logado]
    as an argument. *)
Definition verificar_permissao (db : Db) (usuario_logado : option Usuario.t)
    (codigo_modulo : string) : bool :=
  match usuario_logado with
  | None => false
  | Some u => tem_permissao db u codigo_modulo
  end.

(** What [iniciar_sistema_autenticado] does to [usuario_logado]: it is
    [None] at start, takes the value [fazer_login] returns at each login
    attempt, and goes back to [None] at logout. *)
Inductive Evento :=
| Login (r : Retorno Usuario.t)
| Logout.

Definition passo (usuario_logado : option Usuario.t) (e : Evento)
    : option Usuario.t :=
  match e with
  | Login (Devolve u) => Some u
  | Login (Nada _) => None
  | Logout => None
  end.

Definition usuario_logado_apos (eventos : list Evento) : option Usuario.t :=
  fold_left passo eventos None.

(** ** Seeding the permission catalog ([models.py]) *)

(** The (codigo, nome, descricao) entries of [permissoes_padrao]. *)
Definition permissoes_padrao : list (string * string * string) :=
  [ ("operacional", Py.txt "Módulo Operacional",
     Py.txt "Acesso ao cálculo de capacidade produtiva");
    ("estoque_entrada", Py.txt "Estoque - Entrada",
     Py.txt "Cadastro de entrada de produtos no estoque");
    ("estoque_saida", Py.txt "Estoque - Saída",
     Py.txt "Registro de saída e vendas de produtos");
    ("financeiro", Py.txt "Módulo Financeiro",
     Py.txt "Acesso a análise de custos e lucros");
    ("rh", Py.txt "Módulo RH",
     Py.txt "Acesso à folha de pagamento e gestão de funcionários") ].

(** One turn of the loop: the row is added when no row has its code.
    [ativa] takes its column default. *)
Definition semeia (db : Db) (perm_data : string * string * string) : Db :=
  let '(codigo, nome, descricao) := perm_data in
  match find (fun p => (Permissao.codigo p =? codigo)%string)
             (permissoes db) with
  | Some _ => db
  | None =>
      add_permissao db
        (Permissao.mk (proximo_id (map Permissao.id (permissoes db)))
                      codigo nome descricao true)
  end.

(** The loop over [permissoes_padrao], from the state [db]. *)
Definition semeado (db : Db) : Db := fold_left semeia permissoes_padrao db.

Definition criar_permissoes_padrao : M unit :=
  db <- consulta ;;
  commit (semeado db).

(** ** Companies, users, permissions and login ([gestao_usuarios.py]) *)

(** [segmentos.get(seg_opcao, ...)] *)
Definition segmento_de (seg_opcao : string) : string :=
  if (seg_opcao =? "1")%string then Py.txt "Indústria"
  else if (seg_opcao =? "2")%string then Py.txt "Comércio"
  else if (seg_opcao =? "3")%string then Py.txt "Serviços"
  else if (seg_opcao =? "4")%string then Py.txt "Logística"
  else if (seg_opcao =? "5")%string then "Outro"
  else Py.txt "Não especificado".

(** [linha.strip().upper() == "S"]: on the characters of this model only
    [s] and [S] have the upper case [S]. *)
Definition responde_S (linha : string) : bool :=
  let r := Py.strip linha in ((r =? "S") || (r =? "s"))%string.

Definition cadastrar_empresa (linha_nome linha_cnpj linha_segmento : string)
    (agora : DateTime) : M (Retorno Empresa.t) :=
  tenta
    (db <- consulta ;;
     let nome := Py.strip linha_nome in
     if Py.len nome <? 3 then ret (Nada NomeEmpresaCurto) else
     let cnpj := Py.strip linha_cnpj in
     if negb (Py.len cnpj =? 14) || negb (Py.isdigit cnpj)
     then ret (Nada CnpjInvalido) else
     match find (fun e => (Empresa.cnpj e =? cnpj)%string) (empresas db) with
     | Some _ => ret (Nada CnpjJaCadastrado)
     | None =>
         let segmento := segmento_de (Py.strip linha_segmento) in
         let empresa :=
           Empresa.mk (proximo_id (map Empresa.id (empresas db)))
                      nome cnpj segmento true (Some agora) (Some agora) in
         commit (add_empresa db empresa) ;;;
         ret (Devolve empresa)
     end)
    (fun _ => ret (Nada ErroAoCadastrarEmpresa)).

(** [[int(id.strip()) for id in escolha.split(",")]] *)
Fixpoint ints (partes : list string) : option (list Z) :=
  match partes with
  | [] => Some []
  | p :: r =>
      match Py.int (Py.strip p), ints r with
      | Some n, Some ns => Some (n :: ns)
      | _, _ => None
      end
  end.

Definition ids_escolhidos (escolha : string) : option (list Z) :=
  ints (Py.split "," escolha).

(** One turn of the loop over [ids_escolhidos]. *)
Definition concede (u : Usuario.t) (db : Db) (perm_id : Z) : Db :=
  match find (fun p => Permissao.id p =? perm_id) (permissoes db) with
  | Some permissao => anexa_permissao db u permissao
  | None => db
  end.

(** The user id the function works on: its argument, or else the line
    typed at the prompt, read with [int]. *)
Definition id_informado (usuario_id : option Z) (linha_id : string)
    : option Z :=
  match usuario_id with
  | Some i => Some i
  | None => Py.int linha_id
  end.

Definition configurar_permissoes_usuario (usuario_id : option Z)
    (linha_id linha_escolha : string) : M Mensagem :=
  match id_informado usuario_id linha_id with
  | None => ret NumeroInvalido
  | Some usuario_id =>
      db <- consulta ;;
      match find (fun u => Usuario.id u =? usuario_id) (usuarios db) with
      | None => ret (UsuarioNaoEncontrado usuario_id)
      | Some usuario =>
          if Usuario.is_admin usuario then ret UsuarioAdministrador else
          match empresa_de db usuario with
          | None => levanta AttributeError
          | Some _ =>
              db <- (match filter Permissao.ativa (permissoes db) with
                     | [] => criar_permissoes_padrao ;;; consulta
                     | _ => ret db
                     end) ;;
              let permissoes := filter Permissao.ativa (permissoes db) in
              tenta
                (let escolha := Py.lower (Py.strip linha_escolha) in
                 if (escolha =? "nenhum")%string then
                   commit (limpa_permissoes db usuario) ;;;
                   ret PermissoesRemovidas
                 else if (escolha =? "todos")%string then
                   commit (atribui_permissoes db usuario permissoes) ;;;
                   ret AcessoConcedido
                 else
                   match ids_escolhidos escolha with
                   | None => levanta ValueError
                   | Some ids =>
                       commit (fold_left (concede usuario) ids
                                 (limpa_permissoes db usuario)) ;;;
                       ret PermissoesConfiguradas
                   end)
                (fun e => match e with
                          | ValueError => ret NumerosInvalidos
                          | _ => ret ErroAoConfigurarPermissoes
                          end)
          end
      end
  end.

Section Credenciais.

(** Two functions are taken as given: [bcrypt.hashpw] of the [bcrypt]
    package, and [verify_password], which [gestao_usuarios.py] imports
    from [auth_utils] beside [hash_password].  Both are total here: a
    digest for every password and salt, an answer for every password and
    stored hash. *)
Variable bcrypt_hashpw : list Byte.byte -> list Byte.byte -> list Byte.byte.
Variable verify_password : string -> string -> bool.

(** [hash_password(password)]; [salt] is what [bcrypt.gensalt(rounds=12)]
    returned for this call.  A bcrypt digest is ASCII, so decoding it maps
    each byte to the character of the same code. *)
Definition hash_password (password : string) (salt : list Byte.byte)
    : string :=
  let password_bytes := Py.encode_utf8 password in
  let hashed := bcrypt_hashpw password_bytes salt in
  string_of_list_byte hashed.

(** What the operator types at the prompts of [cadastrar_usuario], in the
    order of the prompts, with the salt drawn for the hash. *)
Record EntradaUsuario := mkEntrada {
  linha_empresa_id : string;
  linha_nome : string;
  linha_email : string;
  linha_senha : string;
  linha_confirma : string;
  linha_admin : string;
  sal : list Byte.byte;
  linha_configurar : string;
  linha_escolha : string
}.

Definition cadastrar_usuario (e : EntradaUsuario) (agora : DateTime)
    : M (Retorno Usuario.t) :=
  db <- consulta ;;
  match filter Empresa.ativa (empresas db) with
  | [] => ret (Nada NenhumaEmpresaAtiva)
  | _ =>
    tenta
      (match Py.int (linha_empresa_id e) with
       | None => levanta ValueError
       | Some empresa_id =>
         match find (fun x => Empresa.id x =? empresa_id) (empresas db) with
         | None => ret (Nada (EmpresaNaoEncontrada empresa_id))
         | Some empresa =>
           let nome := Py.strip (linha_nome e) in
           if Py.len nome <? 3 then ret (Nada NomeCurto) else
           let email := Py.lower (Py.strip (linha_email e)) in
           if negb (Py.contains "@" email) || negb (Py.contains "." email)
           then ret (Nada EmailInvalido) else
           match find (fun u => (Usuario.email u =? email)%string)
                      (usuarios db) with
           | Some _ => ret (Nada EmailJaCadastrado)
           | None =>
             let senha := linha_senha e in
             if Py.len senha <? 6 then ret (Nada SenhaCurta) else
             if negb (senha =? linha_confirma e)%string
             then ret (Nada SenhasNaoCoincidem) else
             let is_admin := responde_S (linha_admin e) in
             let senha_hash := hash_password senha (sal e) in
             let usuario :=
               Usuario.mk (proximo_id (map Usuario.id (usuarios db)))
                          (Empresa.id empresa) nome email senha_hash
                          true is_admin None (Some agora) (Some agora) in
             commit (add_usuario db usuario) ;;;
             (if negb is_admin && responde_S (linha_configurar e)
              then configurar_permissoes_usuario
                     (Some (Usuario.id usuario)) "" (linha_escolha e) ;;;
                   ret tt
              else ret tt) ;;;
             ret (Devolve usuario)
           end
         end
       end)
      (fun ex => match ex with
                 | ValueError => ret (Nada NumeroInvalido)
                 | _ => ret (Nada ErroAoCadastrarUsuario)
                 end)
  end.

Definition fazer_login (linha_email senha : string) (agora : DateTime)
    : M (Retorno Usuario.t) :=
  db <- consulta ;;
  let email := Py.lower (Py.strip linha_email) in
  match find (fun u => (Usuario.email u =? email)%string) (usuarios db) with
  | None => ret (Nada EmailOuSenhaIncorretos)
  | Some usuario =>
      if negb (Usuario.ativo usuario) then ret (Nada UsuarioInativo) else
      match empresa_de db usuario with
      | None => levanta AttributeError
      | Some empresa =>
          if negb (Empresa.ativa empresa) then ret (Nada EmpresaInativa) else
          if negb (verify_password senha (Usuario.senha_hash usuario))
          then ret (Nada EmailOuSenhaIncorretos) else
          commit (atualiza_login db usuario agora) ;;;
          ret (Devolve (marca_login agora usuario))
      end
  end.

End Credenciais.

(** [n] calls in a row. *)
Fixpoint vezes (n : nat) (m : M unit) : M unit :=
  match n with
  | O => ret tt
  | S k => m ;;; vezes k m
  end.

(** ** Sample data for the worked examples *)

Module Exemplo.

Definition acme : Empresa.t :=
  Empresa.mk 1 "Acme Ltda" "12345678901234" (Py.txt "Indústria") true
             (Some 10) (Some 10).

Definition parada : Empresa.t :=
  Empresa.mk 2 "Parada SA" "99999999999999" "Outro" false (Some 11) (Some 11).

Definition ana : Usuario.t :=
  Usuario.mk 1 1 "Ana Souza" "ana@acme.com" "hash:segredo" true false
             None (Some 20) (Some 20).

Definition raul : Usuario.t :=
  Usuario.mk 2 1 "Raul Lima" "raul@acme.com" "hash:chave" true true
             None (Some 21) (Some 21).

Definition ivo : Usuario.t :=
  Usuario.mk 3 1 "Ivo Reis" "ivo@acme.com" "hash:senha1" false false
             None (Some 22) (Some 22).

(** Lia works for the inactive company. *)
Definition lia : Usuario.t :=
  Usuario.mk 4 2 "Lia Prado" "lia@parada.com" "hash:senha2" true false
             None (Some 23) (Some 23).

Definition vazio : Db := mkDb [] [] [] [].

(** The catalog as the first seeding leaves it. *)
Definition catalogo : list Permissao.t :=
  Eval vm_compute in permissoes (semeado vazio).

(** Ana holds the grants 1 (operacional) and 4 (financeiro). *)
Definition db : Db :=
  mkDb [acme; parada] [ana; raul; ivo; lia] catalogo [(1, 1); (1, 4)].

(** The same store before any seeding. *)
Definition db_sem_catalogo : Db :=
  mkDb [acme; parada] [ana; raul; ivo; lia] [] [].

(** Stand-ins for the hasher, for the examples only: the digest is the
    salt followed by the password, and a password is verified against the
    stored text [hash:<password>]. *)
Definition hashpw (password salt : list Byte.byte) : list Byte.byte :=
  salt ++ password.

Definition confere (senha hash : string) : bool :=
  (hash =? "hash:" ++ senha)%string.

Definition entrada_maria (linha_empresa_id : string) : EntradaUsuario :=
  mkEntrada linha_empresa_id "Maria Silva" "Maria@Acme.com" "abc123" "abc123"
            "N" (list_byte_of_string "sal:") "N" "".

(** Rita asks for the permission prompt right after her registration. *)
Definition entrada_rita : EntradaUsuario :=
  mkEntrada "1" "Rita Melo" "rita@acme.com" "abc123" "abc123"
            "N" (list_byte_of_string "sal:") "S" "todos".

End Exemplo.

(** ** Notions the statements use *)

(** A catalog entry whose code no row of the permission table has: the
    test of the seeding loop. *)
Definition codigo_livre (db : Db) (perm_data : string * string * string)
    : bool :=
  match find (fun p => (Permissao.codigo p =? fst (fst perm_data))%string)
             (permissoes db) with
  | Some _ => false
  | None => true
  end.

(** [p] is the row the seeding builds from a catalog entry, whatever id
    the insert gives it. *)
Definition linha_de (p : Permissao.t) (perm_data : string * string * string)
    : Prop :=
  Permissao.codigo p = fst (fst perm_data)
  /\ Permissao.nome p = snd (fst perm_data)
  /\ Permissao.descricao p = snd perm_data
  /\ Permissao.ativa p = true.

(** The store [configurar_permissoes_usuario] goes on with after listing
    the active permissions: when there is none it has seeded the catalog. *)
Definition catalogo_em_uso (db : Db) : Db :=
  match filter Permissao.ativa (permissoes db) with
  | [] => semeado db
  | _ => db
  end.

(** [db'] differs from [db] at most in the grants of [u]: companies,
    users, permissions and the grants of every other user are the same. *)
Definition so_concessoes_de (u : Usuario.t) (db db' : Db) : Prop :=
  empresas db' = empresas db
  /\ usuarios db' = usuarios db
  /\ permissoes db' = permissoes db
  /\ forall v, Usuario.id v <> Usuario.id u ->
               ids_concedidos db' v = ids_concedidos db v.


(** ** Numbers as text, and the menu of the authenticated system
    ([main_auth.py]) *)

Definition digit_char (d : Z) : ascii := ascii_of_N (48 + Z.to_N d).

(** The decimal digits of [n >= 0] put in front of [acc]; the text has at
    most [k + 1] digits. *)
Fixpoint digitos (k : nat) (n : Z) (acc : string) : string :=
  let acc' := String (digit_char (n mod 10)) acc in
  match k with
  | O => acc'
  | S k' => if n <? 10 then acc' else digitos k' (n / 10) acc'
  end.

(** [str(n)] for an integer [n]. *)
Definition py_str (n : Z) : string :=
  if n <? 0 then String "-" (digitos (Z.to_nat (Z.log2 (- n))) (- n) "")
  else digitos (Z.to_nat (Z.log2 n)) n "".

(** The functions the menu can start. *)
Inductive Funcao :=
| calcular_capacidade        (* operacional.calcular_capacidade *)
| cadastrar_produto          (* estoque_entrada.cadastrar_produto *)
| vender_produto             (* estoque_saida.vender_produto *)
| calcular_lucros            (* financeiro.calcular_lucros *)
| calcular_folha_pagamento   (* rh.calcular_folha_pagamento *)
| menu_gestao_usuarios.

(** [opcoes_disponiveis]: the key typed, the module code and the function.
    The keys are distinct, so the dict is the list of its items in the
    order they were put. *)
Definition Opcoes := list (string * (string * Funcao)).

(** One [if ...: opcoes_disponiveis[str(contador)] = ...; contador += 1]. *)
Definition oferece (cond : bool) (codigo : string) (funcao : Funcao)
    (st : Opcoes * Z) : Opcoes * Z :=
  if cond
  then ((fst st ++ [(py_str (snd st), (codigo, funcao))])%list, snd st + 1)
  else st.

(** [exibir_menu_principal()], with the global [usuario_logado] as an
    argument; its first lines print [usuario_logado.empresa.nome]. *)
Definition exibir_menu_principal (db : Db) (usuario_logado : option Usuario.t)
    : Res Opcoes :=
  match usuario_logado with
  | None => Levanta AttributeError
  | Some u =>
      match empresa_de db u with
      | None => Levanta AttributeError
      | Some _ =>
          let pode c :=
            Usuario.is_admin u || verificar_permissao db usuario_logado c in
          let st := ([], 1) in
          let st := oferece (pode "operacional")
                      "operacional" calcular_capacidade st in
          let st := oferece (pode "estoque_entrada")
                      "estoque_entrada" cadastrar_produto st in
          let st := oferece (pode "estoque_saida")
                      "estoque_saida" vender_produto st in
          let st := oferece (pode "financeiro")
                      "financeiro" calcular_lucros st in
          let st := oferece (pode "rh") "rh" calcular_folha_pagamento st in
          let st := oferece (Usuario.is_admin u)
                      "gestao" menu_gestao_usuarios st in
          Val (fst st)
      end
  end.

(** What one turn of the loop of the logged-in user does with the line
    typed: leave, start a function (with the database session or without
    it), or refuse the option. *)
Inductive Acao :=
| Sai
| Executa (funcao : Funcao) (com_sessao : bool)
| OpcaoInvalida.

Definition escolhe (db : Db) (usuario_logado : option Usuario.t)
    (linha : string) : Res Acao :=
  match exibir_menu_principal db usuario_logado with
  | Levanta e => Levanta e
  | Val opcoes_disponiveis =>
      let escolha := Py.strip linha in
      if (escolha =? "0")%string then Val Sai
      else
        match find (fun o => (fst o =? escolha)%string)
                   opcoes_disponiveis with
        | Some (_, (codigo_modulo, funcao)) =>
            if (codigo_modulo =? "gestao")%string
            then Val (Executa funcao false)
            else if (codigo_modulo =? "estoque_entrada")%string
                    || (codigo_modulo =? "estoque_saida")%string
            then Val (Executa funcao true)
            else Val (Executa funcao false)
        | None => Val OpcaoInvalida
        end
  end.

(** The module code a function of the menu stands for. *)
Definition codigo_de (f : Funcao) : string :=
  match f with
  | calcular_capacidade => "operacional"
  | cadastrar_produto => "estoque_entrada"
  | vender_produto => "estoque_saida"
  | calcular_lucros => "financeiro"
  | calcular_folha_pagamento => "rh"
  | menu_gestao_usuarios => "gestao"
  end.

(** ** The constraints of the schema ([models.py]) *)

(** Primary keys and the [unique] columns hold no value twice, a user's
    [empresa_id] is the id of a company, and a row of the association
    table bears the ids of a user and of a permission. *)
Record integro (db : Db) : Prop := mkIntegro {
  pk_empresas : NoDup (map Empresa.id (empresas db));
  un_cnpj : NoDup (map Empresa.cnpj (empresas db));
  pk_usuarios : NoDup (map Usuario.id (usuarios db));
  un_email : NoDup (map Usuario.email (usuarios db));
  pk_permissoes : NoDup (map Permissao.id (permissoes db));
  un_codigo : NoDup (map Permissao.codigo (permissoes db));
  fk_empresa :
    forall u, In u (usuarios db) ->
              In (Usuario.empresa_id u) (map Empresa.id (empresas db));
  fk_usuario_permissoes :
    forall r, In r (usuario_permissoes db) ->
              In (fst r) (map Usuario.id (usuarios db))
              /\ In (snd r) (map Permissao.id (permissoes db))
}.




(** Whether the user may start a function of the menu: the management
    menu is for administrators, a module for who [tem_permissao] accepts
    under the module's code. *)
Definition autorizado (db : Db) (u : Usuario.t) (f : Funcao) : bool :=
  match f with
  | menu_gestao_usuarios => Usuario.is_admin u
  | _ => tem_permissao db u (codigo_de f)
  end.

(** The functions the loop starts with the database session. *)
Definition usa_sessao (f : Funcao) : bool :=
  match f with
  | cadastrar_produto | vender_produto => true
  | _ => false
  end.


(** ** The management menu ([gestao_usuarios.py]) *)

(** [listar_empresas(db)] and [listar_usuarios(db)] read and print.  The
    order of the rows printed is the database's; of the two functions the
    model keeps what they do to the store, which is nothing, and whether
    they raise: the header of each group of users prints
    [user.empresa.nome]. *)
Definition listar_empresas : M unit := ret tt.

Definition listar_usuarios : M unit :=
  db <- consulta ;;
  if forallb (fun user => match empresa_de db user with
                          | Some _ => true
                          | None => false
                          end) (usuarios db)
  then ret tt
  else levanta AttributeError.

(** One turn of the loop of [menu_gestao_usuarios]: the option typed, the
    lines the operation chosen may ask for, the clock, and the faults of
    the session the turn opens. *)
Record Turno := mkTurno {
  opcao_digitada : string;
  nome_empresa : string;
  cnpj_empresa : string;
  segmento_empresa : string;
  entrada_usuario : EntradaUsuario;
  id_usuario : string;
  escolha_permissoes : string;
  agora_turno : DateTime;
  falhas_turno : list bool
}.

Module Gestao.
Section Menu.

Variable bcrypt_hashpw : list Byte.byte -> list Byte.byte -> list Byte.byte.

(** The body of the loop; [false] is the [break] of option 0. *)
Definition turno (t : Turno) : M bool :=
  let opcao := Py.strip (opcao_digitada t) in
  if (opcao =? "1")%string then
    cadastrar_empresa (nome_empresa t) (cnpj_empresa t) (segmento_empresa t)
      (agora_turno t) ;;; ret true
  else if (opcao =? "2")%string then listar_empresas ;;; ret true
  else if (opcao =? "3")%string then
    cadastrar_usuario bcrypt_hashpw (entrada_usuario t) (agora_turno t) ;;;
    ret true
  else if (opcao =? "4")%string then listar_usuarios ;;; ret true
  else if (opcao =? "5")%string then
    configurar_permissoes_usuario None (id_usuario t) (escolha_permissoes t)
    ;;; ret true
  else if (opcao =? "0")%string then ret false
  else ret true.

(** The loop over the turns typed so far: each turn works in a session of
    its own on what the turns before committed; an exception leaves the
    loop. *)
Fixpoint laco (turnos : list Turno) (db : Db) : Res unit * Db :=
  match turnos with
  | [] => (Val tt, db)
  | t :: resto =>
      match turno t (mkSessao db (falhas_turno t)) with
      | (Val true, s) => laco resto (banco s)
      | (Val false, s) => (Val tt, banco s)
      | (Levanta e, s) => (Levanta e, banco s)
      end
  end.

(** [menu_gestao_usuarios()]: the catalog is seeded in a session of its
    own, then the loop runs. *)
Definition menu_gestao_usuarios (falhas_inicio : list bool)
    (turnos : list Turno) (db : Db) : Res unit * Db :=
  match criar_permissoes_padrao (mkSessao db falhas_inicio) with
  | (Val _, s) => laco turnos (banco s)
  | (Levanta e, s) => (Levanta e, banco s)
  end.

End Menu.
End Gestao.

(** * Properties *)

(** ** Strings *)

Lemma length_lstrip (s : string) :
  (String.length (Py.lstrip s) <= String.length s)%nat.
Proof.
  induction s as [|c r IH]; simpl; [lia|].
  destruct (Py.isspace c); simpl; lia.
Qed.

Lemma length_rstrip (s : string) :
  (String.length (Py.rstrip s) <= String.length s)%nat.
Proof.
  induction s as [|c r IH]; simpl; [lia|].
  destruct (Py.rstrip r) as [|d r'].
  - destruct (Py.isspace c); simpl; lia.
  - simpl in *. lia.
Qed.

(** Trimming never lengthens a line. *)
Lemma len_strip_le (s : string) : Py.len (Py.strip s) <= Py.len s.
Proof.
  unfold Py.len, Py.strip.
  pose proof (length_rstrip (Py.lstrip s)).
  pose proof (length_lstrip s). lia.
Qed.

Lemma contains_lstrip (c : ascii) (s : string) :
  Py.contains c (Py.lstrip s) = true -> Py.contains c s = true.
Proof.
  induction s as [|d r IH]; simpl; [discriminate|].
  destruct (Py.isspace d); [|exact (fun H => H)].
  intros H. rewrite (IH H). apply orb_true_r.
Qed.

Lemma contains_rstrip (c : ascii) (s : string) :
  Py.contains c (Py.rstrip s) = true -> Py.contains c s = true.
Proof.
  induction s as [|d r IH]; simpl; [discriminate|].
  destruct (Py.rstrip r) as [|d' r'].
  - destruct (Py.isspace d); simpl; [discriminate|].
    rewrite orb_false_r. intros ->. reflexivity.
  - simpl in *. destruct (Ascii.eqb c d); [reflexivity|exact IH].
Qed.

(** Lowercasing makes no [@] and no dot. *)
Lemma lower_char_pontuacao (d : ascii) :
  Ascii.eqb "@" (Py.lower_char d) = Ascii.eqb "@" d
  /\ Ascii.eqb "." (Py.lower_char d) = Ascii.eqb "." d.
Proof.
  destruct d as [[] [] [] [] [] [] [] []]; vm_compute; split; reflexivity.
Qed.

Lemma contains_lower (s : string) :
  Py.contains "@" (Py.lower s) = Py.contains "@" s
  /\ Py.contains "." (Py.lower s) = Py.contains "." s.
Proof.
  induction s as [|d r [IH1 IH2]]; cbn [Py.lower Py.contains]; [auto|].
  destruct (lower_char_pontuacao d) as [-> ->]. rewrite IH1, IH2. auto.
Qed.

(** A line with no [@] (or no dot) has none once trimmed and lowercased. *)
Lemma contains_normalizado (s : string) :
  (Py.contains "@" s = false ->
   Py.contains "@" (Py.lower (Py.strip s)) = false)
  /\ (Py.contains "." s = false ->
      Py.contains "." (Py.lower (Py.strip s)) = false).
Proof.
  destruct (contains_lower (Py.strip s)) as [-> ->]. unfold Py.strip.
  split; intros H;
    match goal with
    | |- ?b = false => destruct b eqn:Hb; [|reflexivity]
    end;
    apply contains_rstrip, contains_lstrip in Hb; congruence.
Qed.

(** ** Authorization *)


(** C2.  An administrator passes the check for every module code, whatever
    is granted; any other user passes it exactly when the granted
    permissions hold an active one with that code; so a user who is no
    administrator and holds no grant is refused every code. *)
Theorem tem_permissao_decide (db : Db) (u : Usuario.t) (c : string) :
  (Usuario.is_admin u = true -> tem_permissao db u c = true)
  /\ (Usuario.is_admin u = false ->
      (tem_permissao db u c = true <->
       exists p, In p (permissoes_de db u)
                 /\ Permissao.codigo p = c /\ Permissao.ativa p = true))
  /\ (Usuario.is_admin u = false -> permissoes_de db u = [] ->
      tem_permissao db u c = false).
Proof.
  unfold tem_permissao. repeat split.
  - intros ->. reflexivity.
  - rewrite H. intros Hex. apply existsb_exists in Hex as (p & Hin & Hp).
    apply andb_true_iff in Hp as [Hc Ha]. apply String.eqb_eq in Hc.
    exists p. auto.
  - rewrite H. intros (p & Hin & Hc & Ha). apply existsb_exists.
    exists p. split; [exact Hin|]. rewrite Ha, andb_true_r.
    apply String.eqb_eq. exact Hc.
  - intros -> ->. reflexivity.
Qed.

Lemma tem_permissao_decide_exemplo :
  tem_permissao Exemplo.db Exemplo.raul "rh" = true
  /\ (tem_permissao Exemplo.db Exemplo.ana "financeiro" = true <->
      exists p, In p (permissoes_de Exemplo.db Exemplo.ana)
                /\ Permissao.codigo p = "financeiro"
                /\ Permissao.ativa p = true)
  /\ tem_permissao Exemplo.db Exemplo.ivo "rh" = false.
Proof.
  split; [|split].
  - exact (proj1 (tem_permissao_decide Exemplo.db Exemplo.raul "rh")
                 eq_refl).
  - exact (proj1 (proj2 (tem_permissao_decide Exemplo.db Exemplo.ana
                           "financeiro")) eq_refl).
  - exact (proj2 (proj2 (tem_permissao_decide Exemplo.db Exemplo.ivo "rh"))
                 eq_refl eq_refl).
Defined.

Lemma usuario_logado_apos_app (antes : list Evento) (e : Evento) :
  usuario_logado_apos (antes ++ [e])%list = passo (usuario_logado_apos antes) e.
Proof. unfold usuario_logado_apos. rewrite fold_left_app. reflexivity. Qed.

(** C9.  With nobody logged in the module check refuses every code; and
    whenever the check of the running system grants a code, the last thing
    that happened to the logged-in reference was a login that succeeded. *)
Theorem verificar_permissao_sem_login (db : Db) (c : string) :
  verificar_permissao db None c = false
  /\ verificar_permissao db (usuario_logado_apos []) c = false
  /\ (forall eventos,
        verificar_permissao db (usuario_logado_apos eventos) c = true ->
        exists antes u,
          eventos = (antes ++ [Login (Devolve u)])%list
          /\ usuario_logado_apos eventos = Some u).
Proof.
  split; [reflexivity|]. split; [reflexivity|].
  intros eventos. destruct eventos as [|e0 r0] using rev_ind.
  - simpl. discriminate.
  - rewrite usuario_logado_apos_app.
    destruct e0 as [[u|m]|]; simpl; try discriminate.
    intros _. exists r0, u. auto.
Qed.

Lemma verificar_permissao_sem_login_exemplo :
  verificar_permissao Exemplo.db None "financeiro" = false
  /\ exists antes u,
       [Login (Nada UsuarioInativo); Login (Devolve Exemplo.ana)]
       = (antes ++ [Login (Devolve u)])%list
       /\ usuario_logado_apos
            [Login (Nada UsuarioInativo); Login (Devolve Exemplo.ana)]
          = Some u.
Proof.
  destruct (verificar_permissao_sem_login Exemplo.db "financeiro")
    as (H0 & _ & Hev).
  split; [exact H0|]. apply Hev. reflexivity.
Defined.

(** ** Seeding the catalog *)

Lemma find_app {A} (f : A -> bool) (l l' : list A) :
  find f (l ++ l') = match find f l with
                     | Some x => Some x
                     | None => find f l'
                     end.
Proof.
  induction l as [|a l IH]; simpl; [reflexivity|].
  destruct (f a); [reflexivity|exact IH].
Qed.

Lemma criar_permissoes_padrao_sem_falhas (db : Db) :
  criar_permissoes_padrao (sem_falhas db)
  = (Val tt, sem_falhas (semeado db)).
Proof. reflexivity. Qed.

(** One turn of the loop leaves alone a code that is not the one it
    handles. *)
Lemma codigo_livre_semeia (db : Db) (x y : string * string * string) :
  fst (fst x) <> fst (fst y) ->
  codigo_livre (semeia db x) y = codigo_livre db y.
Proof.
  intros Hxy. destruct x as [[c n] d]. unfold semeia.
  destruct (find _ (permissoes db)) eqn:Hx; [reflexivity|].
  unfold codigo_livre, add_permissao. simpl permissoes.
  rewrite find_app. clear Hx.
  destruct (find (fun p => (Permissao.codigo p =? fst (fst y))%string)
                 (permissoes db)); [reflexivity|].
  simpl. destruct (String.eqb_spec c (fst (fst y))); [|reflexivity].
  simpl in Hxy. contradiction.
Qed.

(** The loop over any list of entries with distinct codes: the rows of
    the table stay as they are, in place, and one row is added for each
    entry whose code was free. *)
Lemma semeia_todos (cat : list (string * string * string)) :
  NoDup (map (fun x => fst (fst x)) cat) ->
  forall db, exists novas,
    fold_left semeia cat db
    = mkDb (empresas db) (usuarios db) (permissoes db ++ novas)
           (usuario_permissoes db)
    /\ Forall2 linha_de novas (filter (codigo_livre db) cat).
Proof.
  induction cat as [|x r IH]; intros Hnd db.
  - exists []. simpl. rewrite app_nil_r. destruct db; auto.
  - inversion Hnd as [|c cs Hnotin Hnd']; subst.
    destruct (IH Hnd' (semeia db x)) as (novas1 & Hfold & Hnovas).
    assert (Hfilter : filter (codigo_livre (semeia db x)) r
                      = filter (codigo_livre db) r).
    { apply filter_ext_in. intros y Hy. apply codigo_livre_semeia.
      intros Heq. apply Hnotin. rewrite Heq.
      apply (in_map (fun z => fst (fst z))). exact Hy. }
    rewrite Hfilter in Hnovas. simpl fold_left. rewrite Hfold. clear Hfold.
    simpl filter. destruct x as [[c n] d].
    assert (Hl : codigo_livre db (c, n, d)
                 = match find (fun p => (Permissao.codigo p =? c)%string)
                              (permissoes db) with
                   | Some _ => false
                   | None => true
                   end) by reflexivity.
    rewrite Hl. unfold semeia.
    destruct (find (fun p => (Permissao.codigo p =? c)%string)
                   (permissoes db)).
    + exists novas1. auto.
    + eexists (_ :: novas1). split.
      * simpl. rewrite <- app_assoc. reflexivity.
      * constructor; [|exact Hnovas]. repeat split.
Qed.

Lemma permissoes_padrao_NoDup :
  NoDup (map (fun x => fst (fst x)) permissoes_padrao).
Proof.
  repeat constructor; simpl; intuition discriminate.
Qed.

(** Seeding changes nothing once every catalog code has a row. *)
Lemma semeia_nada (cat : list (string * string * string)) (db : Db) :
  filter (codigo_livre db) cat = [] -> fold_left semeia cat db = db.
Proof.
  induction cat as [|x r IH]; simpl; [reflexivity|].
  destruct (codigo_livre db x) eqn:Hx; [discriminate|].
  intros Hr. assert (Hs : semeia db x = db).
  { unfold codigo_livre in Hx. destruct x as [[c n] d]. unfold semeia.
    simpl in Hx. destruct (find _ (permissoes db)); [reflexivity|discriminate]. }
  rewrite Hs. apply IH. exact Hr.
Qed.

Lemma Forall2_In_r {A B} (R : A -> B -> Prop) (l : list A) (l' : list B) :
  Forall2 R l l' -> forall y, In y l' -> exists x, In x l /\ R x y.
Proof.
  induction 1 as [|x y l l' Hxy _ IH]; intros z Hz; [destruct Hz|].
  destruct Hz as [<-|Hz].
  - exists x. simpl. auto.
  - destruct (IH z Hz) as (x' & Hin & HR). exists x'. simpl. auto.
Qed.

Lemma find_some_In {A} (f : A -> bool) (l : list A) (x : A) :
  In x l -> f x = true -> find f l <> None.
Proof.
  intros Hin Hf Hnone. pose proof (find_none f l Hnone x Hin). congruence.
Qed.

Lemma filter_nenhum {A} (f : A -> bool) (l : list A) :
  (forall x, In x l -> f x = false) -> filter f l = [].
Proof.
  induction l as [|a l IH]; intros Hall; [reflexivity|].
  simpl. rewrite (Hall a (or_introl eq_refl)).
  apply IH. intros y Hy. apply Hall. right. exact Hy.
Qed.

(** After a seeding no catalog code is free. *)
Lemma semeado_completo (db : Db) :
  filter (codigo_livre (semeado db)) permissoes_padrao = [].
Proof.
  destruct (semeia_todos permissoes_padrao permissoes_padrao_NoDup db)
    as (novas & Hfold & Hnovas).
  unfold semeado. rewrite Hfold.
  assert (Hall : forall x, In x permissoes_padrao ->
            codigo_livre
              (mkDb (empresas db) (usuarios db) (permissoes db ++ novas)
                    (usuario_permissoes db)) x = false).
  { intros x Hx. unfold codigo_livre. simpl permissoes. rewrite find_app.
    destruct (find _ (permissoes db)) eqn:Hdb; [reflexivity|].
    assert (Hlivre : In x (filter (codigo_livre db) permissoes_padrao)).
    { apply filter_In. split; [exact Hx|]. unfold codigo_livre.
      rewrite Hdb. reflexivity. }
    destruct (Forall2_In_r _ _ _ Hnovas x Hlivre) as (p & Hp & Hc & _).
    destruct (find _ novas) eqn:Hn; [reflexivity|].
    exfalso. revert Hn. apply find_some_In with (x := p); [exact Hp|].
    apply String.eqb_eq. exact Hc. }
  apply filter_nenhum. exact Hall.
Qed.

Lemma vezes_ponto_fixo (m : M unit) (s : Sessao) (n : nat) :
  m s = (Val tt, s) -> vezes n m s = (Val tt, s).
Proof.
  intros Hm. induction n as [|k IH]; [reflexivity|].
  simpl. unfold bind. rewrite Hm. exact IH.
Qed.

(** C4.  Seeding the default permissions is idempotent.  From any store
    it leaves every table but the permission table alone, keeps each row
    of the permission table as it is and where it is, and adds one row
    (with the catalog's name and description) for exactly the catalog
    codes that no row had; a further call then changes nothing, so any
    number of calls ends in the state the first one reached; and from an
    empty permission table that state has exactly five permission rows. *)
Theorem criar_permissoes_padrao_idempotente (db : Db) :
  criar_permissoes_padrao (sem_falhas db) = (Val tt, sem_falhas (semeado db))
  /\ (exists novas,
        semeado db
        = mkDb (empresas db) (usuarios db) (permissoes db ++ novas)
               (usuario_permissoes db)
        /\ Forall2 linha_de novas
             (filter (codigo_livre db) permissoes_padrao))
  /\ criar_permissoes_padrao (sem_falhas (semeado db))
     = (Val tt, sem_falhas (semeado db))
  /\ (forall n, (1 <= n)%nat ->
        vezes n criar_permissoes_padrao (sem_falhas db)
        = (Val tt, sem_falhas (semeado db)))
  /\ (permissoes db = [] ->
      List.length (permissoes (semeado db)) = 5%nat
      /\ map Permissao.codigo (permissoes (semeado db))
         = map (fun x => fst (fst x)) permissoes_padrao
      /\ map Permissao.descricao (permissoes (semeado db))
         = map snd permissoes_padrao).
Proof.
  assert (Hfix : criar_permissoes_padrao (sem_falhas (semeado db))
                 = (Val tt, sem_falhas (semeado db))).
  { rewrite criar_permissoes_padrao_sem_falhas. do 2 f_equal.
    apply semeia_nada. apply semeado_completo. }
  split; [reflexivity|]. split.
  { apply (semeia_todos _ permissoes_padrao_NoDup). }
  split; [exact Hfix|]. split.
  - intros [|k] Hn; [lia|]. simpl. unfold bind.
    rewrite criar_permissoes_padrao_sem_falhas.
    apply vezes_ponto_fixo. exact Hfix.
  - intros Hvazia. destruct db as [es us ps ups]. simpl in Hvazia.
    subst ps. split; [|split]; vm_compute; reflexivity.
Qed.

Lemma criar_permissoes_padrao_idempotente_exemplo :
  vezes 3 criar_permissoes_padrao (sem_falhas Exemplo.db_sem_catalogo)
  = (Val tt, sem_falhas (semeado Exemplo.db_sem_catalogo))
  /\ List.length (permissoes (semeado Exemplo.db_sem_catalogo)) = 5%nat.
Proof.
  destruct (criar_permissoes_padrao_idempotente Exemplo.db_sem_catalogo)
    as (_ & _ & _ & Hn & Hvazia).
  split.
  - apply Hn. lia.
  - apply Hvazia. reflexivity.
Defined.

(** ** Assigning permissions *)

Arguments semeado : simpl never.

Lemma bind_consulta {A} (k : Db -> M A) (s : Sessao) :
  bind consulta k s = k (banco s) s.
Proof. reflexivity. Qed.


Lemma ids_concedidos_limpa (db : Db) (u : Usuario.t) :
  ids_concedidos (limpa_permissoes db u) u = [].
Proof.
  unfold ids_concedidos, limpa_permissoes. simpl usuario_permissoes.
  induction (usuario_permissoes db) as [|r l IH]; [reflexivity|].
  simpl. destruct (fst r =? Usuario.id u) eqn:Hr; simpl; [exact IH|].
  rewrite Hr. exact IH.
Qed.

Lemma ids_concedidos_limpa_outro (db : Db) (u v : Usuario.t) :
  Usuario.id v <> Usuario.id u ->
  ids_concedidos (limpa_permissoes db u) v = ids_concedidos db v.
Proof.
  intros Hvu. unfold ids_concedidos, limpa_permissoes.
  simpl usuario_permissoes.
  induction (usuario_permissoes db) as [|r l IH]; [reflexivity|].
  simpl. destruct (Z.eqb_spec (fst r) (Usuario.id u)) as [Hu|Hu]; simpl.
  - destruct (Z.eqb_spec (fst r) (Usuario.id v)); [congruence|exact IH].
  - destruct (fst r =? Usuario.id v); simpl; [f_equal|]; exact IH.
Qed.

Lemma ids_concedidos_anexa (db : Db) (u : Usuario.t) (p : Permissao.t) :
  ids_concedidos (anexa_permissao db u p) u
  = (ids_concedidos db u ++ [Permissao.id p])%list.
Proof.
  unfold ids_concedidos, anexa_permissao. simpl usuario_permissoes.
  rewrite filter_app, map_app. simpl. rewrite Z.eqb_refl. reflexivity.
Qed.

Lemma ids_concedidos_anexa_outro (db : Db) (u v : Usuario.t)
    (p : Permissao.t) :
  Usuario.id v <> Usuario.id u ->
  ids_concedidos (anexa_permissao db u p) v = ids_concedidos db v.
Proof.
  intros Hvu. unfold ids_concedidos, anexa_permissao.
  simpl usuario_permissoes. rewrite filter_app, map_app. simpl.
  destruct (Z.eqb_spec (Usuario.id u) (Usuario.id v)); [congruence|].
  simpl. apply app_nil_r.
Qed.

Lemma so_concessoes_refl (u : Usuario.t) (db : Db) : so_concessoes_de u db db.
Proof. repeat split. Qed.

Lemma so_concessoes_trans (u : Usuario.t) (a b c : Db) :
  so_concessoes_de u a b -> so_concessoes_de u b c -> so_concessoes_de u a c.
Proof.
  intros (E1 & U1 & P1 & G1) (E2 & U2 & P2 & G2). repeat split; try congruence.
  intros v Hv. rewrite (G2 v Hv). apply G1. exact Hv.
Qed.

Lemma so_concessoes_limpa (u : Usuario.t) (db : Db) :
  so_concessoes_de u db (limpa_permissoes db u).
Proof.
  repeat split. intros v Hv. apply ids_concedidos_limpa_outro. exact Hv.
Qed.

Lemma so_concessoes_anexa (u : Usuario.t) (db : Db) (p : Permissao.t) :
  so_concessoes_de u db (anexa_permissao db u p).
Proof.
  repeat split. intros v Hv. apply ids_concedidos_anexa_outro. exact Hv.
Qed.

Create HintDb concessoes.
#[local] Hint Resolve so_concessoes_refl so_concessoes_limpa
  so_concessoes_anexa : concessoes.

Lemma so_concessoes_concede (u : Usuario.t) (db : Db) (perm_id : Z) :
  so_concessoes_de u db (concede u db perm_id).
Proof.
  unfold concede. destruct (find _ (permissoes db)); auto with concessoes.
Qed.

#[local] Hint Resolve so_concessoes_concede : concessoes.

(** The grants after the loop over the chosen ids: those held before it,
    and the chosen ids that some permission row bears. *)
Lemma ids_concedidos_concede (u : Usuario.t) (ids : list Z) (db : Db) :
  so_concessoes_de u db (fold_left (concede u) ids db)
  /\ forall pid,
       In pid (ids_concedidos (fold_left (concede u) ids db) u) <->
       In pid (ids_concedidos db u)
       \/ (In pid ids /\ exists p, In p (permissoes db)
                                   /\ Permissao.id p = pid).
Proof.
  revert db. induction ids as [|i r IH]; intros db; simpl.
  - split; [auto with concessoes|]. intros pid. tauto.
  - destruct (IH (concede u db i)) as [Hframe Hin].
    pose proof (so_concessoes_concede u db i) as Hstep.
    split; [exact (so_concessoes_trans _ _ _ _ Hstep Hframe)|].
    intros pid. rewrite Hin. destruct Hstep as (_ & _ & Hperm & _).
    rewrite Hperm. unfold concede at 1.
    destruct (find (fun p => Permissao.id p =? i) (permissoes db))
      as [q|] eqn:Hq.
    + apply find_some in Hq as [Hq1 Hq2]. apply Z.eqb_eq in Hq2.
      rewrite ids_concedidos_anexa, in_app_iff. simpl. split.
      * intros [[H|[H|[]]]|[H1 H2]]; auto.
        right. split; [left; congruence|]. exists q. split; congruence.
      * intros [H|[[H|H] H2]]; auto. left. right. left. congruence.
    + split.
      * intros [H|[H1 H2]]; auto.
      * intros [H|[[H|H] H2]]; auto. exfalso.
        destruct H2 as (p & Hp & Hid).
        pose proof (find_none _ _ Hq p Hp) as Hf. simpl in Hf.
        apply Z.eqb_neq in Hf. congruence.
Qed.

(** The grants after [usuario.permissoes = ps]: the ids of [ps]. *)
Lemma ids_concedidos_atribui (u : Usuario.t) (ps : list Permissao.t)
    (db : Db) :
  so_concessoes_de u db (atribui_permissoes db u ps)
  /\ ids_concedidos (atribui_permissoes db u ps) u = map Permissao.id ps.
Proof.
  unfold atribui_permissoes.
  assert (H : forall d,
    so_concessoes_de u d (fold_left (fun d p => anexa_permissao d u p) ps d)
    /\ ids_concedidos (fold_left (fun d p => anexa_permissao d u p) ps d) u
       = (ids_concedidos d u ++ map Permissao.id ps)%list).
  { induction ps as [|p r IH]; intros d; simpl.
    - split; [auto with concessoes|]. symmetry. apply app_nil_r.
    - destruct (IH (anexa_permissao d u p)) as [Hframe Hids]. split.
      + apply so_concessoes_trans with (2 := Hframe); auto with concessoes.
      + rewrite Hids, ids_concedidos_anexa, <- app_assoc. reflexivity. }
  destruct (H (limpa_permissoes db u)) as [Hframe Hids]. split.
  - apply so_concessoes_trans with (2 := Hframe); auto with concessoes.
  - rewrite Hids, ids_concedidos_limpa. reflexivity.
Qed.

Lemma semeado_so_catalogo (db : Db) :
  empresas (semeado db) = empresas db
  /\ usuarios (semeado db) = usuarios db
  /\ usuario_permissoes (semeado db) = usuario_permissoes db.
Proof.
  destruct (semeia_todos permissoes_padrao permissoes_padrao_NoDup db)
    as (novas & Hfold & _).
  unfold semeado. rewrite Hfold. repeat split.
Qed.


(** Once it holds an active permission the catalog is used as it is. *)
Lemma catalogo_em_uso_estavel (db : Db) :
  filter Permissao.ativa (permissoes db) <> [] -> catalogo_em_uso db = db.
Proof.
  unfold catalogo_em_uso. destruct (filter Permissao.ativa (permissoes db)).
  - intros H. contradiction.
  - reflexivity.
Qed.





(** ** Login *)

(** Runs through the users of a concrete store. *)
Ltac cada_usuario H :=
  simpl in H; repeat destruct H as [<-|H]; try contradiction.

Lemma find_nenhum {A} (f : A -> bool) (l : list A) :
  (forall x, In x l -> f x = false) -> find f l = None.
Proof.
  induction l as [|a l IH]; intros Hall; [reflexivity|].
  simpl. rewrite (Hall a (or_introl eq_refl)).
  apply IH. intros y Hy. apply Hall. right. exact Hy.
Qed.

Section Login.

Variable verify_password : string -> string -> bool.

(** C1, as the code has it.  The checks of the login run in this order,
    on the line typed for the email trimmed of surrounding whitespace and
    then lowercased: (1) no user has that email: refused with the message
    for wrong credentials; (2) the user found is inactive: refused as
    inactive; (3) the user's company is inactive: refused as company
    inactive; (4) the password does not verify against the stored hash:
    refused with the message for wrong credentials; (5) otherwise the
    user's last login is set to the current time and committed, and the
    user is returned.  A refusal leaves the session as it was. *)
Theorem fazer_login_ordem (s : Sessao) (linha_email senha : string)
    (agora : DateTime) :
  let db := banco s in
  let email := Py.lower (Py.strip linha_email) in
  let resultado := fazer_login verify_password linha_email senha agora s in
  ((forall u, In u (usuarios db) -> Usuario.email u <> email) ->
   resultado = (Val (Nada EmailOuSenhaIncorretos), s))
  /\ (forall u,
        find (fun x => (Usuario.email x =? email)%string) (usuarios db)
        = Some u ->
        (Usuario.ativo u = false ->
         resultado = (Val (Nada UsuarioInativo), s))
        /\ (forall e,
              Usuario.ativo u = true -> empresa_de db u = Some e ->
              (Empresa.ativa e = false ->
               resultado = (Val (Nada EmpresaInativa), s))
              /\ (Empresa.ativa e = true ->
                  verify_password senha (Usuario.senha_hash u) = false ->
                  resultado = (Val (Nada EmailOuSenhaIncorretos), s))
              /\ (Empresa.ativa e = true ->
                  verify_password senha (Usuario.senha_hash u) = true ->
                  hd false (falhas s) = false ->
                  resultado
                  = (Val (Devolve (marca_login agora u)),
                     mkSessao (atualiza_login db u agora) (tl (falhas s)))
                  /\ Usuario.ultimo_login (marca_login agora u) = Some agora
                  /\ forall x,
                       In x (usuarios (atualiza_login db u agora)) ->
                       Usuario.id x = Usuario.id u ->
                       Usuario.ultimo_login x = Some agora))).
Proof.
  intros db email resultado. subst resultado.
  unfold fazer_login. rewrite bind_consulta. fold db. fold email. split.
  - intros Hnone. rewrite find_nenhum; [reflexivity|].
    intros u Hu. apply String.eqb_neq. apply Hnone. exact Hu.
  - intros u ->. split.
    + intros ->. reflexivity.
    + intros e -> ->. simpl negb. cbv iota. split; [|split].
      * intros ->. reflexivity.
      * intros -> ->. reflexivity.
      * intros -> -> Hok. simpl negb. cbv iota. split; [|split].
        -- unfold bind, commit, ret. revert Hok. simpl.
           destruct (falhas s) as [|[|] fs]; try reflexivity.
           discriminate.
        -- reflexivity.
        -- unfold atualiza_login. simpl usuarios. intros x Hx Hid.
           apply in_map_iff in Hx as (y & Hy & _).
           destruct (Z.eqb_spec (Usuario.id y) (Usuario.id u)) as [_|Hne].
           ++ subst x. reflexivity.
           ++ subst x. contradiction.
Qed.

(** Every way a login can end. *)
Lemma fazer_login_casos (s s' : Sessao) (linha_email senha : string)
    (agora : DateTime) (r : Res (Retorno Usuario.t)) :
  fazer_login verify_password linha_email senha agora s = (r, s') ->
  (s' = s /\ exists m, r = Val (Nada m))
  \/ (banco s' = banco s /\ exists e, r = Levanta e)
  \/ (exists u,
        find (fun x => (Usuario.email x
                        =? Py.lower (Py.strip linha_email))%string)
             (usuarios (banco s)) = Some u
        /\ r = Val (Devolve (marca_login agora u))
        /\ banco s' = atualiza_login (banco s) u agora).
Proof.
  unfold fazer_login. rewrite bind_consulta.
  destruct (find _ (usuarios (banco s))) as [u|] eqn:Hfind.
  2:{ intros [= <- <-]. left. eauto. }
  destruct (Usuario.ativo u); simpl.
  2:{ intros [= <- <-]. left. eauto. }
  destruct (empresa_de (banco s) u) as [e|].
  2:{ intros [= <- <-]. right. left. eauto. }
  destruct (Empresa.ativa e); simpl.
  2:{ intros [= <- <-]. left. eauto. }
  destruct (verify_password senha (Usuario.senha_hash u)); simpl.
  2:{ intros [= <- <-]. left. eauto. }
  unfold bind, commit, ret.
  destruct (falhas s) as [|[|] fs]; intros [= <- <-].
  - right. right. exists u. auto.
  - right. left. eauto.
  - right. right. exists u. auto.
Qed.

(** C10.  A login that succeeds changes the logged-in user's [ultimo_login]
    and [data_atualizacao] and nothing else: the user's other columns and
    grants, the rows of every other user, the companies, the permissions
    and the association table are as before. *)
Theorem fazer_login_so_marca_login (s s' : Sessao)
    (linha_email senha : string) (agora : DateTime) (u' : Usuario.t) :
  fazer_login verify_password linha_email senha agora s
  = (Val (Devolve u'), s') ->
  exists u,
    In u (usuarios (banco s))
    /\ u' = marca_login agora u
    /\ Usuario.ultimo_login u' = Some agora
    /\ (Usuario.id u' = Usuario.id u
        /\ Usuario.empresa_id u' = Usuario.empresa_id u
        /\ Usuario.nome u' = Usuario.nome u
        /\ Usuario.email u' = Usuario.email u
        /\ Usuario.senha_hash u' = Usuario.senha_hash u
        /\ Usuario.ativo u' = Usuario.ativo u
        /\ Usuario.is_admin u' = Usuario.is_admin u
        /\ Usuario.data_cadastro u' = Usuario.data_cadastro u)
    /\ permissoes_de (banco s') u' = permissoes_de (banco s) u
    /\ usuarios (banco s')
       = map (fun x => if Usuario.id x =? Usuario.id u
                       then marca_login agora x else x)
             (usuarios (banco s))
    /\ (forall i x,
          nth_error (usuarios (banco s)) i = Some x ->
          Usuario.id x <> Usuario.id u ->
          nth_error (usuarios (banco s')) i = Some x)
    /\ empresas (banco s') = empresas (banco s)
    /\ permissoes (banco s') = permissoes (banco s)
    /\ usuario_permissoes (banco s') = usuario_permissoes (banco s).
Proof.
  intros Hrun. apply fazer_login_casos in Hrun.
  destruct Hrun as [[_ [m Hm]]|[[_ [e He]]|(u & Hfind & Hr & Hdb)]];
    try discriminate.
  injection Hr as ->. exists u. rewrite Hdb.
  apply find_some in Hfind as [Hin _].
  split; [exact Hin|]. split; [reflexivity|]. split; [reflexivity|].
  split; [repeat split|]. split; [reflexivity|]. split; [reflexivity|].
  split; [|repeat split].
  intros i x Hx Hne. unfold atualiza_login. simpl usuarios.
  rewrite nth_error_map, Hx. simpl.
  destruct (Z.eqb_spec (Usuario.id x) (Usuario.id u)); [contradiction|].
  reflexivity.
Qed.

End Login.

(** C1 as the specification words it has the lookup on the lowercased
    line; the code trims the line before.  No user of the sample store
    has the email [ ivo@acme.com] with its leading blank, yet the login
    finds Ivo and refuses him as inactive, whatever the password check
    answers; and Ana, typing her email with blanks around it, is logged
    in. *)
Lemma fazer_login_apara_email :
  (forall u, In u (usuarios Exemplo.db) ->
             Usuario.email u <> Py.lower " ivo@acme.com")
  /\ (forall verify_password,
        fazer_login verify_password " ivo@acme.com" "senha1" 99
          (sem_falhas Exemplo.db)
        = (Val (Nada UsuarioInativo), sem_falhas Exemplo.db))
  /\ (forall u, In u (usuarios Exemplo.db) ->
                Usuario.email u <> Py.lower " Ana@acme.com ")
  /\ fazer_login Exemplo.confere " Ana@acme.com " "segredo" 99
       (sem_falhas Exemplo.db)
     = (Val (Devolve (marca_login 99 Exemplo.ana)),
        sem_falhas (atualiza_login Exemplo.db Exemplo.ana 99)).
Proof.
  split; [|split; [|split]].
  - intros u Hu. cada_usuario Hu; vm_compute; discriminate.
  - intros verify_password. reflexivity.
  - intros u Hu. cada_usuario Hu; vm_compute; discriminate.
  - vm_compute. reflexivity.
Qed.

Lemma fazer_login_ordem_exemplo :
  fazer_login Exemplo.confere "ninguem@acme.com" "segredo" 99
    (sem_falhas Exemplo.db)
  = (Val (Nada EmailOuSenhaIncorretos), sem_falhas Exemplo.db)
  /\ fazer_login Exemplo.confere " ivo@acme.com" "senha1" 99
       (sem_falhas Exemplo.db)
     = (Val (Nada UsuarioInativo), sem_falhas Exemplo.db)
  /\ fazer_login Exemplo.confere "lia@parada.com" "senha2" 99
       (sem_falhas Exemplo.db)
     = (Val (Nada EmpresaInativa), sem_falhas Exemplo.db)
  /\ fazer_login Exemplo.confere "ANA@acme.com" "errada" 99
       (sem_falhas Exemplo.db)
     = (Val (Nada EmailOuSenhaIncorretos), sem_falhas Exemplo.db)
  /\ fazer_login Exemplo.confere "ANA@acme.com" "segredo" 99
       (sem_falhas Exemplo.db)
     = (Val (Devolve (marca_login 99 Exemplo.ana)),
        sem_falhas (atualiza_login Exemplo.db Exemplo.ana 99)).
Proof.
  split; [|split; [|split; [|split]]].
  - pose proof (fazer_login_ordem Exemplo.confere (sem_falhas Exemplo.db)
                  "ninguem@acme.com" "segredo" 99) as H.
    cbv zeta in H. destruct H as [H _]. apply H.
    intros u Hu. cada_usuario Hu; vm_compute; discriminate.
  - pose proof (fazer_login_ordem Exemplo.confere (sem_falhas Exemplo.db)
                  " ivo@acme.com" "senha1" 99) as H.
    cbv zeta in H. destruct H as [_ H].
    destruct (H Exemplo.ivo eq_refl) as [H1 _]. apply H1. reflexivity.
  - pose proof (fazer_login_ordem Exemplo.confere (sem_falhas Exemplo.db)
                  "lia@parada.com" "senha2" 99) as H.
    cbv zeta in H. destruct H as [_ H].
    destruct (H Exemplo.lia eq_refl) as [_ H1].
    destruct (H1 Exemplo.parada eq_refl eq_refl) as (H2 & _).
    apply H2. reflexivity.
  - pose proof (fazer_login_ordem Exemplo.confere (sem_falhas Exemplo.db)
                  "ANA@acme.com" "errada" 99) as H.
    cbv zeta in H. destruct H as [_ H].
    destruct (H Exemplo.ana eq_refl) as [_ H1].
    destruct (H1 Exemplo.acme eq_refl eq_refl) as (_ & H2 & _).
    apply H2; reflexivity.
  - pose proof (fazer_login_ordem Exemplo.confere (sem_falhas Exemplo.db)
                  "ANA@acme.com" "segredo" 99) as H.
    cbv zeta in H. destruct H as [_ H].
    destruct (H Exemplo.ana eq_refl) as [_ H1].
    destruct (H1 Exemplo.acme eq_refl eq_refl) as (_ & _ & H2).
    apply H2; reflexivity.
Defined.

Lemma fazer_login_so_marca_login_exemplo :
  exists u,
    In u (usuarios Exemplo.db)
    /\ usuarios (atualiza_login Exemplo.db Exemplo.ana 99)
       = map (fun x => if Usuario.id x =? Usuario.id u
                       then marca_login 99 x else x)
             (usuarios Exemplo.db).
Proof.
  destruct (fazer_login_so_marca_login Exemplo.confere
              (sem_falhas Exemplo.db)
              (sem_falhas (atualiza_login Exemplo.db Exemplo.ana 99))
              " Ana@acme.com " "segredo" 99 (marca_login 99 Exemplo.ana))
    as (u & Hin & _ & _ & _ & _ & Hus & _).
  - vm_compute. reflexivity.
  - exists u. split; [exact Hin|exact Hus].
Defined.

(** ** Registering a company *)


(** Every way a company registration can end. *)
Lemma cadastrar_empresa_casos (s : Sessao)
    (linha_nome linha_cnpj linha_segmento : string) (agora : DateTime) :
  let nome := Py.strip linha_nome in
  let cnpj := Py.strip linha_cnpj in
  let db := banco s in
  let empresa :=
    Empresa.mk (proximo_id (map Empresa.id (empresas db))) nome cnpj
               (segmento_de (Py.strip linha_segmento)) true
               (Some agora) (Some agora) in
  cadastrar_empresa linha_nome linha_cnpj linha_segmento agora s
  = if Py.len nome <? 3 then (Val (Nada NomeEmpresaCurto), s)
    else if negb (Py.len cnpj =? 14) || negb (Py.isdigit cnpj)
    then (Val (Nada CnpjInvalido), s)
    else match find (fun e => (Empresa.cnpj e =? cnpj)%string)
                    (empresas db) with
         | Some _ => (Val (Nada CnpjJaCadastrado), s)
         | None =>
             if hd false (falhas s)
             then (Val (Nada ErroAoCadastrarEmpresa),
                   mkSessao db (tl (falhas s)))
             else (Val (Devolve empresa),
                   mkSessao (add_empresa db empresa) (tl (falhas s)))
         end.
Proof.
  cbv zeta. unfold cadastrar_empresa, tenta. rewrite bind_consulta.
  destruct (Py.len (Py.strip linha_nome) <? 3); [reflexivity|].
  destruct (negb (Py.len (Py.strip linha_cnpj) =? 14)
            || negb (Py.isdigit (Py.strip linha_cnpj))); [reflexivity|].
  destruct (find _ (empresas (banco s))); [reflexivity|].
  unfold bind, commit, ret.
  destruct (falhas s) as [|[|] fs]; reflexivity.
Qed.




(** ** Operations that fail *)



Lemma proximo_id_fresco (ids : list Z) (x : Z) :
  In x ids -> x < proximo_id ids.
Proof.
  unfold proximo_id. induction ids as [|i r IH]; cbn [fold_right In];
    [tauto|].
  intros [<-|Hin]; [lia|]. specialize (IH Hin). lia.
Qed.

Section Cadastro.

Variable bcrypt_hashpw : list Byte.byte -> list Byte.byte -> list Byte.byte.
Variable verify_password : string -> string -> bool.

(** The checks of a user registration, in their order, down to the point
    where the new row is committed. *)
Lemma cadastrar_usuario_casos (s : Sessao) (e : EntradaUsuario)
    (agora : DateTime) :
  let db := banco s in
  let nome := Py.strip (linha_nome e) in
  let email := Py.lower (Py.strip (linha_email e)) in
  let senha := linha_senha e in
  let is_admin := responde_S (linha_admin e) in
  cadastrar_usuario bcrypt_hashpw e agora s
  = match filter Empresa.ativa (empresas db) with
    | [] => (Val (Nada NenhumaEmpresaAtiva), s)
    | _ =>
      match Py.int (linha_empresa_id e) with
      | None => (Val (Nada NumeroInvalido), s)
      | Some empresa_id =>
        match find (fun x => Empresa.id x =? empresa_id) (empresas db) with
        | None => (Val (Nada (EmpresaNaoEncontrada empresa_id)), s)
        | Some empresa =>
          if Py.len nome <? 3 then (Val (Nada NomeCurto), s) else
          if negb (Py.contains "@" email) || negb (Py.contains "." email)
          then (Val (Nada EmailInvalido), s) else
          match find (fun u => (Usuario.email u =? email)%string)
                     (usuarios db) with
          | Some _ => (Val (Nada EmailJaCadastrado), s)
          | None =>
            if Py.len senha <? 6 then (Val (Nada SenhaCurta), s) else
            if negb (senha =? linha_confirma e)%string
            then (Val (Nada SenhasNaoCoincidem), s) else
            let usuario :=
              Usuario.mk (proximo_id (map Usuario.id (usuarios db)))
                         (Empresa.id empresa) nome email
                         (hash_password bcrypt_hashpw senha (sal e))
                         true is_admin None (Some agora) (Some agora) in
            tenta
              (commit (add_usuario db usuario) ;;;
               (if negb is_admin && responde_S (linha_configurar e)
                then configurar_permissoes_usuario
                       (Some (Usuario.id usuario)) "" (linha_escolha e) ;;;
                     ret tt
                else ret tt) ;;;
               ret (Devolve usuario))
              (fun ex => match ex with
                         | ValueError => ret (Nada NumeroInvalido)
                         | _ => ret (Nada ErroAoCadastrarUsuario)
                         end) s
          end
        end
      end
    end.
Proof.
  cbv zeta. unfold cadastrar_usuario. rewrite bind_consulta.
  destruct (filter Empresa.ativa (empresas (banco s))); [reflexivity|].
  unfold tenta at 1.
  destruct (Py.int (linha_empresa_id e)); [|reflexivity].
  destruct (find _ (empresas (banco s))); [|reflexivity].
  destruct (Py.len (Py.strip (linha_nome e)) <? 3); [reflexivity|].
  destruct (negb _ || negb _); [reflexivity|].
  destruct (find _ (usuarios (banco s))); [reflexivity|].
  destruct (Py.len (linha_senha e) <? 6); [reflexivity|].
  destruct (negb (linha_senha e =? linha_confirma e)%string); reflexivity.
Qed.




(** C3 at an input where the code parts from it: the company typed is an
    inactive one.  Company 2 of the sample store is inactive, and the
    registration under it goes through: the user is created, active,
    bound to company 2, with the hash of the password as the stored
    hash. *)
Theorem cadastrar_usuario_empresa_inativa :
  find (fun x => Empresa.id x =? 2) (empresas Exemplo.db)
  = Some Exemplo.parada
  /\ Empresa.ativa Exemplo.parada = false
  /\ exists usuario,
       cadastrar_usuario bcrypt_hashpw (Exemplo.entrada_maria "2") 50
         (sem_falhas Exemplo.db)
       = (Val (Devolve usuario),
          sem_falhas (add_usuario Exemplo.db usuario))
       /\ Usuario.empresa_id usuario = 2
       /\ Usuario.ativo usuario = true
       /\ Usuario.email usuario = "maria@acme.com"
       /\ Usuario.senha_hash usuario
          = hash_password bcrypt_hashpw "abc123" (list_byte_of_string "sal:").
Proof.
  split; [reflexivity|]. split; [reflexivity|].
  eexists. split; [reflexivity|]. repeat split.
Qed.

(** What the registration does check: each of these inputs is refused and
    no user is created; and a registration that succeeds stores
    [hash_password] of the password typed. *)
Lemma cadastrar_usuario_recusa (s : Sessao) (e : EntradaUsuario)
    (agora : DateTime) :
  let email := Py.lower (Py.strip (linha_email e)) in
  ((Py.len (linha_nome e) < 3
    \/ Py.contains "@" (linha_email e) = false
    \/ Py.contains "." (linha_email e) = false
    \/ (exists u, In u (usuarios (banco s)) /\ Usuario.email u = email)
    \/ Py.len (linha_senha e) < 6
    \/ linha_senha e <> linha_confirma e
    \/ (forall c, In c (empresas (banco s)) -> Empresa.ativa c = false)
    \/ (forall c, In c (empresas (banco s)) ->
                  Some (Empresa.id c) <> Py.int (linha_empresa_id e))) ->
   exists m,
     cadastrar_usuario bcrypt_hashpw e agora s = (Val (Nada m), s))
  /\ (forall u s',
        cadastrar_usuario bcrypt_hashpw e agora s = (Val (Devolve u), s') ->
        Usuario.senha_hash u
        = hash_password bcrypt_hashpw (linha_senha e) (sal e)).
Proof.
  intros email. rewrite cadastrar_usuario_casos. cbv zeta. fold email.
  destruct (filter Empresa.ativa (empresas (banco s))) as [|c0 cs] eqn:Hat.
  { split; [eauto|discriminate]. }
  destruct (Py.int (linha_empresa_id e)) as [empresa_id|] eqn:Hint.
  2:{ split; [eauto|discriminate]. }
  destruct (find _ (empresas (banco s))) as [empresa|] eqn:Hemp.
  2:{ split; [eauto|discriminate]. }
  destruct (Z.ltb_spec (Py.len (Py.strip (linha_nome e))) 3) as [|Hnome].
  { split; [eauto|discriminate]. }
  destruct (Py.contains "@" email) eqn:Harroba; simpl.
  2:{ split; [eauto|discriminate]. }
  destruct (Py.contains "." email) eqn:Hponto; simpl.
  2:{ split; [eauto|discriminate]. }
  destruct (find _ (usuarios (banco s))) as [dup|] eqn:Hdup.
  { split; [eauto|discriminate]. }
  destruct (Z.ltb_spec (Py.len (linha_senha e)) 6) as [|Hsenha].
  { split; [eauto|discriminate]. }
  destruct (String.eqb_spec (linha_senha e) (linha_confirma e))
    as [Hconf|Hconf]; simpl.
  2:{ split; [eauto|discriminate]. }
  split.
  - intros Hmau. exfalso.
    pose proof (len_strip_le (linha_nome e)).
    destruct (contains_normalizado (linha_email e)) as [Ha Hp].
    fold email in Ha, Hp.
    destruct Hmau as [H1|[H1|[H1|[H1|[H1|[H1|[H1|H1]]]]]]];
      try lia; try contradiction.
    + rewrite (Ha H1) in Harroba. discriminate.
    + rewrite (Hp H1) in Hponto. discriminate.
    + destruct H1 as (u & Hin & Hmail).
      pose proof (find_none _ _ Hdup u Hin) as Hf. simpl in Hf.
      apply String.eqb_neq in Hf. contradiction.
    + assert (Hin : In c0 (filter Empresa.ativa (empresas (banco s))))
        by (rewrite Hat; left; reflexivity).
      apply filter_In in Hin as [Hin Hativa].
      rewrite (H1 c0 Hin) in Hativa. discriminate.
    + apply find_some in Hemp as [Hin Hid]. apply Z.eqb_eq in Hid.
      apply (H1 empresa Hin). congruence.
  - intros u s'. unfold tenta, bind, commit, ret.
    destruct (falhas s) as [|[|] fs]; try discriminate.
    all: destruct (negb (responde_S (linha_admin e))
                   && responde_S (linha_configurar e));
      [destruct (configurar_permissoes_usuario _ _ _ _) as [[m|ex] s2]|];
      try destruct ex; intros [= <- _]; reflexivity.
Qed.

End Cadastro.



(** * Further properties of the code *)

(** ** Trimming and lowercasing *)

Lemma lstrip_fixo (s : string) :
  match s with
  | String c _ => Py.isspace c = false
  | EmptyString => True
  end -> Py.lstrip s = s.
Proof. destruct s as [|c r]; simpl; [reflexivity|]. intros ->. reflexivity. Qed.

Lemma lstrip_sem_espaco (s : string) :
  match Py.lstrip s with
  | String c _ => Py.isspace c = false
  | EmptyString => True
  end.
Proof.
  induction s as [|c r IH]; simpl; [exact I|].
  destruct (Py.isspace c) eqn:Hc; [exact IH|exact Hc].
Qed.

Lemma rstrip_inicio (s : string) :
  match s with
  | String c _ => Py.isspace c = false
  | EmptyString => True
  end ->
  match Py.rstrip s with
  | String c _ => Py.isspace c = false
  | EmptyString => True
  end.
Proof.
  destruct s as [|c r]; simpl; [auto|]. intros Hc.
  destruct (Py.rstrip r); [rewrite Hc|]; exact Hc.
Qed.

Lemma rstrip_cons (c : ascii) (r : string) :
  Py.rstrip (String c r)
  = match Py.rstrip r with
    | EmptyString => if Py.isspace c then EmptyString else String c EmptyString
    | r' => String c r'
    end.
Proof. reflexivity. Qed.

Lemma rstrip_rstrip (s : string) : Py.rstrip (Py.rstrip s) = Py.rstrip s.
Proof.
  induction s as [|c r IH]; [reflexivity|].
  rewrite rstrip_cons. destruct (Py.rstrip r) as [|d r'] eqn:Hr.
  - destruct (Py.isspace c) eqn:Hc; [reflexivity|].
    rewrite rstrip_cons. cbn [Py.rstrip]. rewrite Hc. reflexivity.
  - rewrite rstrip_cons, IH. reflexivity.
Qed.

Lemma strip_strip (s : string) : Py.strip (Py.strip s) = Py.strip s.
Proof.
  unfold Py.strip.
  rewrite (lstrip_fixo (Py.rstrip (Py.lstrip s))).
  - apply rstrip_rstrip.
  - apply rstrip_inicio, lstrip_sem_espaco.
Qed.

Lemma lower_char_fatos (c : ascii) :
  Py.lower_char (Py.lower_char c) = Py.lower_char c
  /\ Py.isspace (Py.lower_char c) = Py.isspace c.
Proof.
  destruct c as [[] [] [] [] [] [] [] []]; vm_compute; split; reflexivity.
Qed.

Lemma lower_lower (s : string) : Py.lower (Py.lower s) = Py.lower s.
Proof.
  induction s as [|c r IH]; [reflexivity|].
  cbn [Py.lower]. rewrite IH, (proj1 (lower_char_fatos c)). reflexivity.
Qed.

Lemma lstrip_lower (s : string) :
  Py.lstrip (Py.lower s) = Py.lower (Py.lstrip s).
Proof.
  induction s as [|c r IH]; [reflexivity|].
  cbn [Py.lower Py.lstrip]. rewrite (proj2 (lower_char_fatos c)).
  destruct (Py.isspace c); [exact IH|reflexivity].
Qed.

Lemma rstrip_lower (s : string) :
  Py.rstrip (Py.lower s) = Py.lower (Py.rstrip s).
Proof.
  induction s as [|c r IH]; [reflexivity|].
  cbn [Py.lower Py.rstrip]. rewrite IH, (proj2 (lower_char_fatos c)).
  destruct (Py.rstrip r); cbn [Py.lower]; [|reflexivity].
  destruct (Py.isspace c); reflexivity.
Qed.

(** X1.  Trimming a trimmed line and normalising a normalised email
    change nothing: the email a registration stores (the line trimmed,
    then lowercased) is the very text the lookup of a later login or
    registration computes from it, and trimming commutes with
    lowercasing. *)
Theorem normalizacao_idempotente (s : string) :
  Py.strip (Py.strip s) = Py.strip s
  /\ Py.lower (Py.strip (Py.lower (Py.strip s))) = Py.lower (Py.strip s)
  /\ Py.strip (Py.lower s) = Py.lower (Py.strip s).
Proof.
  assert (Hcomuta : forall t, Py.strip (Py.lower t) = Py.lower (Py.strip t)).
  { intros t. unfold Py.strip. rewrite lstrip_lower. apply rstrip_lower. }
  split; [apply strip_strip|]. split; [|apply Hcomuta].
  rewrite Hcomuta, strip_strip. apply lower_lower.
Qed.

(** ** Numbers written and read back *)

Lemma all_chars_impl (f g : ascii -> bool) (s : string) :
  (forall c, f c = true -> g c = true) ->
  Py.all_chars f s = true -> Py.all_chars g s = true.
Proof.
  intros Hfg. induction s as [|c r IH]; simpl; [auto|].
  intros H. apply andb_true_iff in H as [Hc Hr].
  rewrite (Hfg c Hc), (IH Hr). reflexivity.
Qed.

(** A text without whitespace is its own trimming. *)
Lemma strip_sem_espacos (s : string) :
  Py.all_chars (fun c => negb (Py.isspace c)) s = true -> Py.strip s = s.
Proof.
  intros H. unfold Py.strip. rewrite lstrip_fixo.
  - induction s as [|c r IH]; [reflexivity|].
    simpl in H. apply andb_true_iff in H as [Hc Hr].
    rewrite rstrip_cons, (IH Hr). apply negb_true_iff in Hc. rewrite Hc.
    destruct r; reflexivity.
  - destruct s as [|c r]; [exact I|]. simpl in H.
    apply andb_true_iff in H as [Hc _]. apply negb_true_iff. exact Hc.
Qed.

Lemma digit_char_decimal (d : Z) :
  0 <= d < 10 ->
  Py.isdecimal_char (digit_char d) = true
  /\ Py.digit_value (digit_char d) = d.
Proof.
  intros Hd.
  assert (H : d = 0 \/ d = 1 \/ d = 2 \/ d = 3 \/ d = 4 \/ d = 5 \/ d = 6
              \/ d = 7 \/ d = 8 \/ d = 9) by lia.
  repeat destruct H as [->|H]; try subst d; vm_compute; split; reflexivity.
Qed.

Lemma digitos_decimais (k : nat) (n : Z) (acc : string) :
  0 <= n ->
  Py.all_chars Py.isdecimal_char (digitos k n acc)
  = Py.all_chars Py.isdecimal_char acc.
Proof.
  revert n acc. induction k as [|k IH]; intros n acc Hn;
    cbn [digitos].
  - cbn [Py.all_chars].
    rewrite (proj1 (digit_char_decimal (n mod 10) (Z.mod_pos_bound n 10 eq_refl))).
    reflexivity.
  - destruct (n <? 10).
    + cbn [Py.all_chars].
      rewrite (proj1 (digit_char_decimal (n mod 10)
                        (Z.mod_pos_bound n 10 eq_refl))).
      reflexivity.
    + rewrite IH by (apply Z.div_pos; lia). cbn [Py.all_chars].
      rewrite (proj1 (digit_char_decimal (n mod 10)
                        (Z.mod_pos_bound n 10 eq_refl))).
      reflexivity.
Qed.

(** Reading the digits of [n] continues the number read so far. *)
Lemma int_digits_digitos (k : nat) :
  forall n acc, 0 <= n -> n < 10 ^ (Z.of_nat k + 1) ->
  exists d, 0 <= d /\ forall a p,
    Py.int_digits (digitos k n acc) a p
    = Py.int_digits acc (a * 10 ^ d + n) true.
Proof.
  assert (Hum : forall n acc, 0 <= n < 10 -> forall a p,
            Py.int_digits (String (digit_char (n mod 10)) acc) a p
            = Py.int_digits acc (a * 10 ^ 1 + n) true).
  { intros n acc Hn a p. rewrite Z.mod_small by lia. cbn [Py.int_digits].
    destruct (digit_char_decimal n Hn) as [-> ->].
    f_equal. rewrite Z.pow_1_r. lia. }
  induction k as [|k IH]; intros n acc Hn Hlim; cbn [digitos].
  - exists 1. split; [lia|]. apply Hum. simpl in Hlim. lia.
  - destruct (Z.ltb_spec n 10) as [Hp|Hg].
    + exists 1. split; [lia|]. apply Hum. lia.
    + destruct (IH (n / 10) (String (digit_char (n mod 10)) acc))
        as (d & Hd & Heq).
      * apply Z.div_pos; lia.
      * apply Z.div_lt_upper_bound; [lia|].
        replace (Z.of_nat (S k) + 1) with (Z.succ (Z.of_nat k + 1)) in Hlim
          by lia.
        rewrite Z.pow_succ_r in Hlim by lia. exact Hlim.
      * exists (d + 1). split; [lia|]. intros a p. rewrite Heq.
        cbn [Py.int_digits].
        destruct (digit_char_decimal (n mod 10)
                    (Z.mod_pos_bound n 10 eq_refl)) as [-> ->].
        f_equal. rewrite Z.pow_add_r, Z.pow_1_r by lia.
        pose proof (Z.div_mod n 10). lia.
Qed.

Lemma fuel_basta (n : Z) :
  0 <= n -> n < 10 ^ (Z.of_nat (Z.to_nat (Z.log2 n)) + 1).
Proof.
  intros Hn. rewrite Z2Nat.id by apply Z.log2_nonneg.
  destruct (Z.eq_dec n 0) as [->|Hz]; [reflexivity|].
  pose proof (Z.log2_spec n ltac:(lia)) as [_ Hlt].
  pose proof (Z.log2_nonneg n).
  assert (2 ^ (Z.log2 n + 1) <= 10 ^ (Z.log2 n + 1))
    by (apply Z.pow_le_mono_l; lia).
  replace (Z.succ (Z.log2 n)) with (Z.log2 n + 1) in Hlt by lia. lia.
Qed.

(** A text of decimal digits is read as it stands. *)
Lemma int_decimais (s : string) :
  Py.all_chars Py.isdecimal_char s = true ->
  Py.int s = Py.int_digits s 0 false.
Proof.
  intros H. unfold Py.int. rewrite strip_sem_espacos.
  - destruct s as [|c r]; [reflexivity|]. simpl in H.
    apply andb_true_iff in H as [Hc _].
    destruct c as [[] [] [] [] [] [] [] []]; try discriminate Hc;
      reflexivity.
  - revert H. apply all_chars_impl. intros c Hc.
    destruct c as [[] [] [] [] [] [] [] []]; try discriminate Hc;
      reflexivity.
Qed.

Lemma py_str_positivo (n : Z) :
  0 <= n ->
  Py.all_chars Py.isdecimal_char (py_str n) = true
  /\ Py.int (py_str n) = Some n.
Proof.
  intros Hn. unfold py_str. destruct (Z.ltb_spec n 0); [lia|].
  assert (Hdec : Py.all_chars Py.isdecimal_char
                   (digitos (Z.to_nat (Z.log2 n)) n "") = true)
    by (rewrite digitos_decimais by lia; reflexivity).
  split; [exact Hdec|]. rewrite (int_decimais _ Hdec).
  destruct (int_digits_digitos _ n "" Hn (fuel_basta n Hn)) as (d & _ & ->).
  reflexivity.
Qed.

Lemma int_py_str (n : Z) : Py.int (py_str n) = Some n.
Proof.
  destruct (Z.ltb_spec n 0) as [Hneg|Hpos].
  2:{ apply py_str_positivo. exact Hpos. }
  unfold py_str. destruct (Z.ltb_spec n 0); [|lia].
  assert (Hdec : Py.all_chars Py.isdecimal_char
                   (digitos (Z.to_nat (Z.log2 (- n))) (- n) "") = true)
    by (rewrite digitos_decimais by lia; reflexivity).
  unfold Py.int. rewrite strip_sem_espacos.
  - destruct (int_digits_digitos _ (- n) "" ltac:(lia)
                (fuel_basta (- n) ltac:(lia))) as (d & _ & ->).
    simpl. f_equal. lia.
  - cbn [Py.all_chars]. rewrite andb_true_iff. split; [reflexivity|].
    revert Hdec. apply all_chars_impl. intros c Hc.
    destruct c as [[] [] [] [] [] [] [] []]; try discriminate Hc;
      reflexivity.
Qed.


(** ** The list of ids typed at the permission prompt *)



Lemma split_sem_separador (sep : ascii) (s : string) :
  Py.all_chars (fun c => negb (Ascii.eqb c sep)) s = true ->
  Py.split sep s = [s]
  /\ forall t, Py.split sep (s ++ String sep t) = s :: Py.split sep t.
Proof.
  induction s as [|c r IH]; intros H.
  - split; [reflexivity|]. intros t. simpl. rewrite Ascii.eqb_refl.
    reflexivity.
  - simpl in H. apply andb_true_iff in H as [Hc Hr].
    apply negb_true_iff in Hc. destruct (IH Hr) as [IH1 IH2].
    split; [|intros t]; simpl; rewrite Hc; [rewrite IH1|rewrite IH2];
      reflexivity.
Qed.







Lemma split_nao_vazio (sep : ascii) (s : string) : Py.split sep s <> [].
Proof.
  destruct s as [|c r]; simpl; [discriminate|].
  destruct (Ascii.eqb c sep); [discriminate|].
  destruct (Py.split sep r); discriminate.
Qed.

Lemma rstrip_vazio (s : string) :
  Py.rstrip s = "" -> Py.all_chars Py.isspace s = true.
Proof.
  induction s as [|c r IH]; [reflexivity|].
  rewrite rstrip_cons. destruct (Py.rstrip r) as [|d r'].
  - destruct (Py.isspace c) eqn:Hc; [|discriminate].
    intros _. simpl. rewrite Hc. apply IH. reflexivity.
  - discriminate.
Qed.

Lemma strip_vazio (s : string) :
  Py.strip s = "" -> Py.all_chars Py.isspace s = true.
Proof.
  unfold Py.strip. intros H. apply rstrip_vazio in H.
  pose proof (lstrip_sem_espaco s) as Hini.
  destruct (Py.lstrip s) as [|c r] eqn:Hl.
  - clear H Hini. induction s as [|d t IH]; [reflexivity|].
    simpl in Hl |- *. destruct (Py.isspace d); [auto|discriminate].
  - simpl in H. rewrite Hini in H. discriminate.
Qed.

(** X4.  The prompt for ids never yields an empty list: a line that is
    empty or blank is refused like any malformed one (so the grants are
    cleared by the word [nenhum] only), and so is a line with an empty
    field, as after a trailing comma. *)
Theorem ids_escolhidos_nunca_vazio (s : string) :
  ids_escolhidos s <> Some []
  /\ (Py.strip s = "" -> ids_escolhidos s = None)
  /\ (forall t, ids_escolhidos (t ++ ",") = None).
Proof.
  unfold ids_escolhidos. split; [|split].
  - pose proof (split_nao_vazio "," s) as Hne.
    destruct (Py.split "," s) as [|p r]; [congruence|].
    simpl. destruct (Py.int (Py.strip p)); [|discriminate].
    destruct (ints r); discriminate.
  - intros Hblank. pose proof (strip_vazio s Hblank) as Hsp.
    assert (Hsep : Py.all_chars (fun c => negb (Ascii.eqb c ",")) s = true).
    { revert Hsp. apply all_chars_impl. intros c Hc.
      destruct c as [[] [] [] [] [] [] [] []]; try discriminate Hc;
        reflexivity. }
    rewrite (proj1 (split_sem_separador "," s Hsep)).
    simpl. rewrite Hblank. reflexivity.
  - intros t.
    assert (H : exists h tl, Py.split "," (t ++ ",") = h :: tl
                             /\ ints tl = None).
    { induction t as [|c r (h & tl & Hs & Htl)].
      - exists "", [""]. split; reflexivity.
      - simpl. rewrite Hs. destruct (Ascii.eqb c ",").
        + exists "", (h :: tl). split; [reflexivity|].
          simpl. rewrite Htl. destruct (Py.int (Py.strip h)); reflexivity.
        + exists (String c h), tl. split; [reflexivity|exact Htl]. }
    destruct H as (h & tl & -> & Htl). simpl. rewrite Htl.
    destruct (Py.int (Py.strip h)); reflexivity.
Qed.

(** ** The menu of the logged-in user *)

Arguments tem_permissao : simpl never.

(** Splits on what [tem_permissao] answers for the five module codes. *)
Ltac cada_modulo db u :=
  destruct (tem_permissao db u "operacional") eqn:?;
  destruct (tem_permissao db u "estoque_entrada") eqn:?;
  destruct (tem_permissao db u "estoque_saida") eqn:?;
  destruct (tem_permissao db u "financeiro") eqn:?;
  destruct (tem_permissao db u "rh") eqn:?.

Lemma tem_permissao_admin (db : Db) (u : Usuario.t) (c : string) :
  Usuario.is_admin u = true -> tem_permissao db u c = true.
Proof. unfold tem_permissao. intros ->. reflexivity. Qed.

(** The items of the menu: each pairs a function with its own code and is
    authorised; every authorised function has an item; the keys count up
    from 1. *)
Lemma exibir_menu_itens (db : Db) (u : Usuario.t) (ops : Opcoes) :
  exibir_menu_principal db (Some u) = Val ops ->
  (forall k c f, In (k, (c, f)) ops ->
                 c = codigo_de f /\ autorizado db u f = true)
  /\ (forall f, autorizado db u f = true ->
                exists k, In (k, (codigo_de f, f)) ops)
  /\ map fst ops
     = map (fun i => py_str (Z.of_nat i)) (seq 1 (List.length ops)).
Proof.
  unfold exibir_menu_principal, verificar_permissao.
  destruct (empresa_de db u); [|discriminate]. cbv zeta.
  destruct (Usuario.is_admin u) eqn:Ha.
  - rewrite !(tem_permissao_admin db u _ Ha). intros [= <-].
    split; [|split].
    + intros k c f Hin. simpl in Hin.
      repeat destruct Hin as [Hin|Hin]; try contradiction;
        injection Hin as <- <- <-; split; try reflexivity;
        unfold autorizado; simpl codigo_de;
        auto using tem_permissao_admin.
    + intros f _. destruct f; eexists; simpl; eauto 10.
    + vm_compute. reflexivity.
  - cada_modulo db u; intros [= <-]; (split; [|split]);
      try (vm_compute; reflexivity).
    all: try (intros k c f Hin; simpl in Hin;
              repeat destruct Hin as [Hin|Hin]; try contradiction;
              injection Hin as <- <- <-; split; try reflexivity;
              unfold autorizado; simpl codigo_de; assumption).
    all: intros f Hf; destruct f; unfold autorizado in Hf;
      simpl codigo_de in Hf; try congruence; eexists; simpl; eauto 10.
Qed.

(** X5.  The menu offers exactly what the user may start: an item pairs a
    function with that function's module code, a module is offered if and
    only if [tem_permissao] accepts the user for its code, and the
    management menu if and only if the user is an administrator. *)
Theorem menu_oferece_o_autorizado (db : Db) (u : Usuario.t) (ops : Opcoes) :
  exibir_menu_principal db (Some u) = Val ops ->
  forall c f,
    (exists k, In (k, (c, f)) ops) <->
    (c = codigo_de f /\ autorizado db u f = true).
Proof.
  intros Hmenu c f.
  destruct (exibir_menu_itens db u ops Hmenu) as (Hso & Hcompleto & _).
  split.
  - intros [k Hin]. exact (Hso k c f Hin).
  - intros [-> Hf]. exact (Hcompleto f Hf).
Qed.

Lemma menu_oferece_o_autorizado_exemplo :
  (exists k, In (k, ("financeiro", calcular_lucros))
               [("1", ("operacional", calcular_capacidade));
                ("2", ("financeiro", calcular_lucros))])
  <-> ("financeiro" = codigo_de calcular_lucros
       /\ autorizado Exemplo.db Exemplo.ana calcular_lucros = true).
Proof.
  apply (menu_oferece_o_autorizado Exemplo.db Exemplo.ana). reflexivity.
Defined.

Lemma py_str_injetiva (a b : Z) : py_str a = py_str b -> a = b.
Proof.
  intros H. pose proof (int_py_str a) as Ha. rewrite H, int_py_str in Ha.
  congruence.
Qed.

Lemma NoDup_map_injetiva {A B} (f : A -> B) (l : list A) :
  (forall x y, f x = f y -> x = y) -> NoDup l -> NoDup (map f l).
Proof.
  intros Hinj. induction 1 as [|a l Hnotin _ IH]; simpl; constructor;
    [|exact IH].
  intros Hin. apply in_map_iff in Hin as (y & Hy & Hin).
  apply Hinj in Hy. subst y. contradiction.
Qed.

(** X6.  The keys of the menu are the numbers 1, 2, ... up to the number
    of items, in order and without a gap, whatever the user may start; so
    no key is offered twice and none is [0], the key that leaves. *)
Theorem menu_numerado (db : Db) (u : Usuario.t) (ops : Opcoes) :
  exibir_menu_principal db (Some u) = Val ops ->
  map fst ops = map (fun i => py_str (Z.of_nat i)) (seq 1 (List.length ops))
  /\ NoDup (map fst ops)
  /\ ~ In "0" (map fst ops).
Proof.
  intros Hmenu.
  destruct (exibir_menu_itens db u ops Hmenu) as (_ & _ & Hkeys).
  split; [exact Hkeys|]. rewrite Hkeys. split.
  - apply NoDup_map_injetiva; [|apply seq_NoDup].
    intros i j Hij. apply py_str_injetiva in Hij. lia.
  - intros Hin. apply in_map_iff in Hin as (i & Hi & Hseq).
    apply in_seq in Hseq. change "0" with (py_str 0) in Hi.
    apply py_str_injetiva in Hi. lia.
Qed.

Lemma menu_numerado_exemplo :
  map fst [("1", ("operacional", calcular_capacidade));
           ("2", ("financeiro", calcular_lucros))]
  = map (fun i => py_str (Z.of_nat i)) (seq 1 2)
  /\ NoDup (map fst [("1", ("operacional", calcular_capacidade));
                     ("2", ("financeiro", calcular_lucros))])
  /\ ~ In "0" (map fst [("1", ("operacional", calcular_capacidade));
                        ("2", ("financeiro", calcular_lucros))]).
Proof.
  apply (menu_numerado Exemplo.db Exemplo.ana). reflexivity.
Defined.

(** X7.  Whatever line the logged-in user types at the menu, a function is
    started only if the user is authorised for it, and it gets the
    database session exactly when it is one of the two stock functions;
    the line [0] (blanks around it aside) leaves and starts nothing. *)
Theorem escolhe_so_o_autorizado (db : Db) (u : Usuario.t) (linha : string) :
  (forall f b,
     escolhe db (Some u) linha = Val (Executa f b) ->
     autorizado db u f = true /\ b = usa_sessao f)
  /\ (Py.strip linha = "0" -> empresa_de db u <> None ->
      escolhe db (Some u) linha = Val Sai).
Proof.
  unfold escolhe. split.
  - intros f b.
    destruct (exibir_menu_principal db (Some u)) as [ops|e] eqn:Hmenu;
      [|discriminate].
    destruct (exibir_menu_itens db u ops Hmenu) as (Hso & _ & _).
    destruct (Py.strip linha =? "0")%string; [discriminate|].
    destruct (find _ ops) as [[k [c g]]|] eqn:Hfind; [|discriminate].
    apply find_some in Hfind as [Hin _].
    destruct (Hso k c g Hin) as [-> Hg].
    destruct g; simpl; intros [= <- <-]; auto.
  - intros H0 Hemp. unfold exibir_menu_principal.
    destruct (empresa_de db u); [|contradiction]. cbv zeta.
    rewrite H0. reflexivity.
Qed.

Lemma escolhe_so_o_autorizado_exemplo :
  (autorizado Exemplo.db Exemplo.raul cadastrar_produto = true
   /\ true = usa_sessao cadastrar_produto)
  /\ escolhe Exemplo.db (Some Exemplo.ana) " 0 " = Val Sai.
Proof.
  destruct (escolhe_so_o_autorizado Exemplo.db Exemplo.raul "2") as [H _].
  destruct (escolhe_so_o_autorizado Exemplo.db Exemplo.ana " 0 ") as [_ H0].
  split.
  - apply H. reflexivity.
  - apply H0; [reflexivity|discriminate].
Defined.

(** ** The constraints of the schema are kept *)

Lemma NoDup_snoc {A} (l : list A) (x : A) :
  NoDup l -> ~ In x l -> NoDup (l ++ [x]).
Proof.
  intros Hl Hx. apply NoDup_app; [exact Hl|repeat constructor; auto|].
  intros y Hy [<-|[]]. contradiction.
Qed.

Lemma find_none_map {A B} (f : A -> B) (eqb : B -> B -> bool) (b : B)
    (l : list A) :
  (forall x y, eqb x y = true <-> x = y) ->
  find (fun a => eqb (f a) b) l = None -> ~ In b (map f l).
Proof.
  intros Heqb Hfind Hin. apply in_map_iff in Hin as (a & Ha & Hin).
  pose proof (find_none _ _ Hfind a Hin) as Hf. simpl in Hf.
  rewrite Ha in Hf. rewrite (proj2 (Heqb b b) eq_refl) in Hf. discriminate.
Qed.

Lemma proximo_id_novo (ids : list Z) : ~ In (proximo_id ids) ids.
Proof. intros Hin. apply proximo_id_fresco in Hin. lia. Qed.

Lemma integro_add_empresa (db : Db) (e : Empresa.t) :
  integro db ->
  ~ In (Empresa.id e) (map Empresa.id (empresas db)) ->
  ~ In (Empresa.cnpj e) (map Empresa.cnpj (empresas db)) ->
  integro (add_empresa db e).
Proof.
  intros [H1 H2 H3 H4 H5 H6 H7 H8] Hid Hcnpj.
  constructor; simpl; rewrite ?map_app; simpl;
    auto using NoDup_snoc.
  intros u Hu. apply in_or_app. left. auto.
Qed.

Lemma integro_add_usuario (db : Db) (u : Usuario.t) :
  integro db ->
  ~ In (Usuario.id u) (map Usuario.id (usuarios db)) ->
  ~ In (Usuario.email u) (map Usuario.email (usuarios db)) ->
  In (Usuario.empresa_id u) (map Empresa.id (empresas db)) ->
  integro (add_usuario db u).
Proof.
  intros [H1 H2 H3 H4 H5 H6 H7 H8] Hid Hemail Hfk.
  constructor; simpl; rewrite ?map_app; simpl;
    auto using NoDup_snoc.
  - intros v Hv. apply in_app_or in Hv as [Hv|[<-|[]]]; auto.
  - intros r Hr. destruct (H8 r Hr). split; [apply in_or_app|]; auto.
Qed.

Lemma integro_semeia (db : Db) (x : string * string * string) :
  integro db -> integro (semeia db x).
Proof.
  intros Hdb. destruct x as [[c n] d]. unfold semeia.
  destruct (find _ (permissoes db)) eqn:Hfind; [exact Hdb|].
  destruct Hdb as [H1 H2 H3 H4 H5 H6 H7 H8].
  constructor; simpl; rewrite ?map_app; simpl; auto.
  - apply NoDup_snoc; [exact H5|apply proximo_id_novo].
  - apply NoDup_snoc; [exact H6|].
    apply (find_none_map Permissao.codigo String.eqb c _ String.eqb_eq
             Hfind).
  - intros r Hr. destruct (H8 r Hr). split; [|apply in_or_app]; auto.
Qed.

Lemma integro_semeado (db : Db) : integro db -> integro (semeado db).
Proof.
  unfold semeado. generalize permissoes_padrao. intros cat. revert db.
  induction cat as [|x r IH]; intros db Hdb; simpl; [exact Hdb|].
  apply IH, integro_semeia, Hdb.
Qed.

Lemma integro_limpa (db : Db) (u : Usuario.t) :
  integro db -> integro (limpa_permissoes db u).
Proof.
  intros [H1 H2 H3 H4 H5 H6 H7 H8]. constructor; simpl; auto.
  intros r Hr. apply filter_In in Hr as [Hr _]. auto.
Qed.

Lemma integro_anexa (db : Db) (u : Usuario.t) (p : Permissao.t) :
  integro db -> In u (usuarios db) -> In p (permissoes db) ->
  integro (anexa_permissao db u p).
Proof.
  intros [H1 H2 H3 H4 H5 H6 H7 H8] Hu Hp. constructor; simpl; auto.
  intros r Hr. apply in_app_or in Hr as [Hr|[<-|[]]]; [auto|].
  simpl. split; apply in_map; assumption.
Qed.

Lemma integro_concede (u : Usuario.t) (ids : list Z) (db : Db) :
  integro db -> In u (usuarios db) ->
  integro (fold_left (concede u) ids db).
Proof.
  revert db. induction ids as [|i r IH]; intros db Hdb Hu; simpl;
    [exact Hdb|].
  apply IH.
  - unfold concede.
    destruct (find _ (permissoes db)) as [p|] eqn:Hp; [|exact Hdb].
    apply find_some in Hp as [Hp _]. apply integro_anexa; assumption.
  - unfold concede. destruct (find _ (permissoes db)); exact Hu.
Qed.

Lemma integro_atribui (db : Db) (u : Usuario.t) (ps : list Permissao.t) :
  integro db -> In u (usuarios db) -> incl ps (permissoes db) ->
  integro (atribui_permissoes db u ps).
Proof.
  intros Hdb Hu Hps. unfold atribui_permissoes.
  assert (H : forall d, integro d -> usuarios d = usuarios db ->
                        permissoes d = permissoes db ->
            integro (fold_left (fun d p => anexa_permissao d u p) ps d)).
  { induction ps as [|p r IH]; intros d Hd Hus Hpe; simpl; [exact Hd|].
    apply IH; try assumption.
    - intros q Hq. apply Hps. right. exact Hq.
    - apply integro_anexa; [exact Hd|rewrite Hus; exact Hu|].
      rewrite Hpe. apply Hps. left. reflexivity. }
  apply H; [apply integro_limpa; exact Hdb|reflexivity|reflexivity].
Qed.

Lemma integro_atualiza_login (db : Db) (u : Usuario.t) (t : DateTime) :
  integro db -> integro (atualiza_login db u t).
Proof.
  intros [H1 H2 H3 H4 H5 H6 H7 H8].
  set (f := fun x => if Usuario.id x =? Usuario.id u then marca_login t x
                     else x).
  assert (Hid : map Usuario.id (map f (usuarios db))
                = map Usuario.id (usuarios db)).
  { rewrite map_map. apply map_ext. intros x. unfold f.
    destruct (Usuario.id x =? Usuario.id u); reflexivity. }
  assert (Hemail : map Usuario.email (map f (usuarios db))
                   = map Usuario.email (usuarios db)).
  { rewrite map_map. apply map_ext. intros x. unfold f.
    destruct (Usuario.id x =? Usuario.id u); reflexivity. }
  constructor; unfold atualiza_login; simpl; fold f;
    rewrite ?Hid, ?Hemail; auto.
  intros v Hv. apply in_map_iff in Hv as (x & <- & Hx). unfold f.
  destruct (Usuario.id x =? Usuario.id u); simpl; auto.
Qed.

Create HintDb integridade.
#[local] Hint Resolve integro_semeado integro_limpa integro_concede
  integro_atribui integro_atualiza_login : integridade.

(** The stores an assignment can leave. *)
Lemma configurar_banco (s s' : Sessao) (usuario_id : option Z)
    (linha_id linha_escolha : string) (r : Res Mensagem) :
  configurar_permissoes_usuario usuario_id linha_id linha_escolha s
  = (r, s') ->
  banco s' = banco s
  \/ banco s' = semeado (banco s)
  \/ exists u db1,
       In u (usuarios (banco s))
       /\ id_informado usuario_id linha_id = Some (Usuario.id u)
       /\ (db1 = banco s \/ db1 = semeado (banco s))
       /\ (banco s' = limpa_permissoes db1 u
           \/ banco s'
              = atribui_permissoes db1 u
                  (filter Permissao.ativa (permissoes db1))
           \/ exists ids,
                banco s' = fold_left (concede u) ids (limpa_permissoes db1 u)).
Proof.
  unfold configurar_permissoes_usuario.
  destruct (id_informado usuario_id linha_id) as [uid|];
    [|intros [= <- <-]; auto].
  rewrite bind_consulta.
  destruct (find _ (usuarios (banco s))) as [u|] eqn:Hfind;
    [|intros [= <- <-]; auto].
  apply find_some in Hfind as [Hu Hid]. apply Z.eqb_eq in Hid. subst uid.
  destruct (Usuario.is_admin u); [intros [= <- <-]; auto|].
  destruct (empresa_de (banco s) u); [|intros [= <- <-]; auto].
  destruct (filter Permissao.ativa (permissoes (banco s))) eqn:Hat;
    unfold criar_permissoes_padrao;
    unfold bind, tenta, consulta, commit, ret, levanta;
    destruct (_ =? "nenhum")%string;
    try destruct (_ =? "todos")%string;
    try destruct (ids_escolhidos _);
    simpl; destruct (falhas s) as [|[|] [|[|] fs]]; simpl;
    intros [= <- <-]; simpl; auto;
    right; right; eexists u, _; (split; [exact Hu|]);
    (split; [reflexivity|]); eauto 6.
Qed.

Lemma integro_exemplo : integro Exemplo.db.
Proof.
  constructor; simpl.
  all: try (repeat constructor; simpl; intuition discriminate).
  - intros u Hu. cada_usuario Hu; simpl; auto.
  - intros r [<-|[<-|[]]]; simpl; auto 10.
Qed.

(** Every way an assignment can end keeps the constraints. *)
Lemma integro_configurar (s s' : Sessao)
    (usuario_id : option Z) (linha_id linha_escolha : string)
    (r : Res Mensagem) :
  integro (banco s) ->
  configurar_permissoes_usuario usuario_id linha_id linha_escolha s
  = (r, s') ->
  integro (banco s').
Proof.
  intros Hdb Hrun. apply configurar_banco in Hrun.
  destruct Hrun as [->|[->|(u & db1 & Hu & _ & Hdb1 & Hfim)]];
    auto with integridade.
  assert (Hint : integro db1)
    by (destruct Hdb1 as [->| ->]; auto with integridade).
  assert (Hu1 : In u (usuarios db1)).
  { destruct Hdb1 as [->| ->]; [exact Hu|].
    rewrite (proj1 (proj2 (semeado_so_catalogo (banco s)))). exact Hu. }
  destruct Hfim as [->|[->|[ids ->]]]; auto with integridade.
  apply integro_atribui; auto. apply incl_filter.
Qed.


(** Assigning permissions touches neither the companies nor the users, and
    no grant of a user other than the one whose id was given. *)
Lemma configurar_moldura (s s' : Sessao) (usuario_id : option Z)
    (linha_id linha_escolha : string) (r : Res Mensagem) :
  configurar_permissoes_usuario usuario_id linha_id linha_escolha s
  = (r, s') ->
  empresas (banco s') = empresas (banco s)
  /\ usuarios (banco s') = usuarios (banco s)
  /\ incl (permissoes (banco s)) (permissoes (banco s'))
  /\ forall v, id_informado usuario_id linha_id <> Some (Usuario.id v) ->
               ids_concedidos (banco s') v = ids_concedidos (banco s) v.
Proof.
  intros Hrun. apply configurar_banco in Hrun.
  destruct (semeado_so_catalogo (banco s)) as (Es & Us & Ps).
  assert (Hsem : incl (permissoes (banco s)) (permissoes (semeado (banco s)))).
  { destruct (semeia_todos permissoes_padrao permissoes_padrao_NoDup (banco s))
      as (novas & Hfold & _).
    unfold semeado. rewrite Hfold. simpl. apply incl_appl, incl_refl. }
  assert (Hids : forall v, ids_concedidos (semeado (banco s)) v
                           = ids_concedidos (banco s) v).
  { intros v. unfold ids_concedidos. rewrite Ps. reflexivity. }
  destruct Hrun as [->|[->|(u & db1 & Hu & Hid & Hdb1 & Hfim)]].
  - repeat split; auto using incl_refl.
  - repeat split; auto.
  - assert (H1 : empresas db1 = empresas (banco s)
                 /\ usuarios db1 = usuarios (banco s)
                 /\ incl (permissoes (banco s)) (permissoes db1)
                 /\ forall v, ids_concedidos db1 v
                              = ids_concedidos (banco s) v).
    { destruct Hdb1 as [->| ->]; repeat split; auto using incl_refl. }
    destruct H1 as (E1 & U1 & P1 & G1).
    assert (H2 : so_concessoes_de u db1 (banco s')).
    { destruct Hfim as [->|[->|[ids ->]]].
      - auto with concessoes.
      - apply ids_concedidos_atribui.
      - apply so_concessoes_trans with (limpa_permissoes db1 u);
          [auto with concessoes|apply ids_concedidos_concede]. }
    destruct H2 as (E2 & U2 & P2 & G2).
    repeat split; try congruence.
    + rewrite P2. exact P1.
    + intros v Hv. rewrite G2, G1; [reflexivity|].
      intros Heq. apply Hv. rewrite Hid, Heq. reflexivity.
Qed.

Lemma integro_cadastrar_empresa (s s' : Sessao)
    (linha_nome linha_cnpj linha_segmento : string) (agora : DateTime)
    (r : Res (Retorno Empresa.t)) :
  integro (banco s) ->
  cadastrar_empresa linha_nome linha_cnpj linha_segmento agora s = (r, s') ->
  integro (banco s').
Proof.
  intros Hdb. rewrite cadastrar_empresa_casos. cbv zeta.
  destruct (Py.len (Py.strip linha_nome) <? 3);
    [intros [= <- <-]; exact Hdb|].
  destruct (negb _ || negb _); [intros [= <- <-]; exact Hdb|].
  destruct (find _ (empresas (banco s))) eqn:Hfind;
    [intros [= <- <-]; exact Hdb|].
  destruct (hd false (falhas s)); intros [= <- <-]; [exact Hdb|].
  simpl. apply integro_add_empresa; [exact Hdb|apply proximo_id_novo|].
  simpl.
  apply (find_none_map Empresa.cnpj String.eqb _ _ String.eqb_eq Hfind).
Qed.

(** X8.  Registering a company keeps the constraints of the schema,
    whatever is typed and whether or not the commit fails: the explicit
    test on the CNPJ is what keeps the [unique] column free of a double,
    so the insert never runs into the database's own check. *)
Theorem cadastrar_empresa_integro (s s' : Sessao)
    (linha_nome linha_cnpj linha_segmento : string) (agora : DateTime)
    (r : Res (Retorno Empresa.t)) :
  integro (banco s) ->
  cadastrar_empresa linha_nome linha_cnpj linha_segmento agora s = (r, s') ->
  integro (banco s').
Proof. apply integro_cadastrar_empresa. Qed.

Lemma cadastrar_empresa_integro_exemplo :
  integro (banco (snd (cadastrar_empresa "Nova Ltda" "11111111111111" "2" 30
                         (sem_falhas Exemplo.db)))).
Proof.
  apply (cadastrar_empresa_integro (sem_falhas Exemplo.db) _
           "Nova Ltda" "11111111111111" "2" 30
           (fst (cadastrar_empresa "Nova Ltda" "11111111111111" "2" 30
                   (sem_falhas Exemplo.db)))).
  - exact integro_exemplo.
  - apply surjective_pairing.
Defined.

Lemma integro_criar_permissoes_padrao (s s' : Sessao) (r : Res unit) :
  integro (banco s) ->
  criar_permissoes_padrao s = (r, s') ->
  integro (banco s').
Proof.
  intros Hdb. unfold criar_permissoes_padrao.
  rewrite bind_consulta. unfold commit.
  destruct (falhas s) as [|[|] fs]; intros [= <- <-]; simpl;
    auto with integridade.
Qed.

(** X9.  Seeding the catalog keeps the constraints of the schema: the
    rows it adds get ids and codes that no row has. *)
Theorem criar_permissoes_padrao_integro (s s' : Sessao) (r : Res unit) :
  integro (banco s) ->
  criar_permissoes_padrao s = (r, s') ->
  integro (banco s').
Proof. apply integro_criar_permissoes_padrao. Qed.

Lemma criar_permissoes_padrao_integro_exemplo :
  integro (banco (snd (criar_permissoes_padrao (sem_falhas Exemplo.db)))).
Proof.
  apply (criar_permissoes_padrao_integro (sem_falhas Exemplo.db) _
           (fst (criar_permissoes_padrao (sem_falhas Exemplo.db)))).
  - exact integro_exemplo.
  - apply surjective_pairing.
Defined.

(** X10.  Assigning permissions keeps the constraints of the schema,
    whatever is typed and whichever commit fails: every row it puts in
    the association table bears the id of the user it found and of a
    permission row it found. *)
Theorem configurar_permissoes_integro (s s' : Sessao)
    (usuario_id : option Z) (linha_id linha_escolha : string)
    (r : Res Mensagem) :
  integro (banco s) ->
  configurar_permissoes_usuario usuario_id linha_id linha_escolha s
  = (r, s') ->
  integro (banco s').
Proof. apply integro_configurar. Qed.

Lemma configurar_permissoes_integro_exemplo :
  integro (banco (snd (configurar_permissoes_usuario (Some 1) "" "2,5,99"
                         (sem_falhas Exemplo.db)))).
Proof.
  apply (configurar_permissoes_integro (sem_falhas Exemplo.db) _
           (Some 1) "" "2,5,99"
           (fst (configurar_permissoes_usuario (Some 1) "" "2,5,99"
                   (sem_falhas Exemplo.db)))).
  - exact integro_exemplo.
  - apply surjective_pairing.
Defined.

(** ** Registration and login together *)

Section Acesso.

Variable bcrypt_hashpw : list Byte.byte -> list Byte.byte -> list Byte.byte.
Variable verify_password : string -> string -> bool.

(** Every way a registration can end: the store as it was and no user
    returned; or the row built from the lines typed, appended for a company
    that was found under the id typed, and after it at most the follow-up
    assignment of the new user's permissions. *)
Lemma cadastrar_usuario_banco (s s' : Sessao) (e : EntradaUsuario)
    (agora : DateTime) (r : Res (Retorno Usuario.t)) :
  cadastrar_usuario bcrypt_hashpw e agora s = (r, s') ->
  (banco s' = banco s /\ forall u, r <> Val (Devolve u))
  \/ exists empresa,
       let usuario :=
         Usuario.mk (proximo_id (map Usuario.id (usuarios (banco s))))
                    (Empresa.id empresa) (Py.strip (linha_nome e))
                    (Py.lower (Py.strip (linha_email e)))
                    (hash_password bcrypt_hashpw (linha_senha e) (sal e))
                    true (responde_S (linha_admin e)) None
                    (Some agora) (Some agora) in
       In empresa (empresas (banco s))
       /\ (exists n, Py.int (linha_empresa_id e) = Some n
                     /\ find (fun x => Empresa.id x =? n)
                             (empresas (banco s)) = Some empresa)
       /\ ~ In (Usuario.email usuario)
               (map Usuario.email (usuarios (banco s)))
       /\ (forall u, r = Val (Devolve u) -> u = usuario)
       /\ (banco s' = add_usuario (banco s) usuario
           \/ (Usuario.is_admin usuario = false
               /\ responde_S (linha_configurar e) = true
               /\ exists fs r2,
                    configurar_permissoes_usuario
                      (Some (Usuario.id usuario)) "" (linha_escolha e)
                      (mkSessao (add_usuario (banco s) usuario) fs)
                    = (r2, s'))).
Proof.
  rewrite cadastrar_usuario_casos. cbv zeta.
  destruct (filter Empresa.ativa (empresas (banco s)));
    [intros [= <- <-]; left; split; [reflexivity|discriminate]|].
  destruct (Py.int (linha_empresa_id e)) as [n|];
    [|intros [= <- <-]; left; split; [reflexivity|discriminate]].
  destruct (find _ (empresas (banco s))) as [empresa|] eqn:Hemp;
    [|intros [= <- <-]; left; split; [reflexivity|discriminate]].
  destruct (Py.len (Py.strip (linha_nome e)) <? 3);
    [intros [= <- <-]; left; split; [reflexivity|discriminate]|].
  destruct (negb _ || negb _);
    [intros [= <- <-]; left; split; [reflexivity|discriminate]|].
  destruct (find _ (usuarios (banco s))) eqn:Hemail;
    [intros [= <- <-]; left; split; [reflexivity|discriminate]|].
  destruct (Py.len (linha_senha e) <? 6);
    [intros [= <- <-]; left; split; [reflexivity|discriminate]|].
  destruct (negb (linha_senha e =? linha_confirma e)%string);
    [intros [= <- <-]; left; split; [reflexivity|discriminate]|].
  set (usuario := Usuario.mk _ _ _ _ _ _ _ _ _ _).
  assert (Hnovo : ~ In (Usuario.email usuario)
                       (map Usuario.email (usuarios (banco s)))).
  { apply (find_none_map Usuario.email String.eqb _ _ String.eqb_eq Hemail). }
  pose proof (find_some _ _ Hemp) as [Hin _].
  unfold tenta. unfold bind at 1. unfold commit.
  destruct (falhas s) as [|[|] fs].
  2:{ intros [= <- <-]. left. split; [reflexivity|discriminate]. }
  all: unfold bind at 1.
  all: destruct (negb (responde_S (linha_admin e))
                 && responde_S (linha_configurar e)) eqn:Hcfg.
  all: try (intros [= <- <-]; right; exists empresa; cbv zeta;
            fold usuario; repeat split; eauto; congruence).
  all: apply andb_prop in Hcfg as [Hadm Hcf];
       apply negb_true_iff in Hadm.
  all: unfold bind at 1.
  all: match goal with
       | |- context [configurar_permissoes_usuario ?a ?b ?c ?s0] =>
           destruct (configurar_permissoes_usuario a b c s0)
             as [[m|ex] s2] eqn:Hconf
       end.
  all: unfold ret.
  all: try destruct ex.
  all: intros [= <- <-]; right; exists empresa; cbv zeta; fold usuario.
  all: repeat split; eauto; try congruence.
  all: right; split; [exact Hadm|]; split; [exact Hcf|]; eauto.
Qed.

Lemma integro_cadastrar_usuario (s s' : Sessao) (e : EntradaUsuario)
    (agora : DateTime) (r : Res (Retorno Usuario.t)) :
  integro (banco s) ->
  cadastrar_usuario bcrypt_hashpw e agora s = (r, s') ->
  integro (banco s').
Proof.
  intros Hdb Hrun. apply cadastrar_usuario_banco in Hrun.
  destruct Hrun as [[-> _]|[empresa H]]; [exact Hdb|].
  cbv zeta in H. destruct H as (Hin & _ & Hnovo & _ & Hfim).
  match type of Hnovo with
  | ~ In (Usuario.email ?u) _ => set (usuario := u) in *
  end.
  assert (Hadd : integro (add_usuario (banco s) usuario)).
  { apply integro_add_usuario; auto.
    - apply proximo_id_novo.
    - simpl. apply in_map. exact Hin. }
  destruct Hfim as [->|(_ & _ & fs & r2 & Hconf)]; [exact Hadd|].
  apply integro_configurar in Hconf; auto.
Qed.

(** X11.  Registering a user keeps the constraints of the schema, whatever
    is typed and whichever commit fails, the follow-up assignment of
    permissions included: the explicit tests on the company id and on the
    email are what keep the foreign key and the [unique] column. *)
Theorem cadastrar_usuario_integro (s s' : Sessao) (e : EntradaUsuario)
    (agora : DateTime) (r : Res (Retorno Usuario.t)) :
  integro (banco s) ->
  cadastrar_usuario bcrypt_hashpw e agora s = (r, s') ->
  integro (banco s').
Proof. apply integro_cadastrar_usuario. Qed.

(** X12.  A login keeps the constraints of the schema: the update it
    writes changes neither a key nor an email. *)
Theorem fazer_login_integro (s s' : Sessao) (linha_email senha : string)
    (agora : DateTime) (r : Res (Retorno Usuario.t)) :
  integro (banco s) ->
  fazer_login verify_password linha_email senha agora s = (r, s') ->
  integro (banco s').
Proof.
  intros Hdb Hrun. apply fazer_login_casos in Hrun.
  destruct Hrun as [[-> _]|[[-> _]|(u & _ & _ & ->)]];
    auto with integridade.
Qed.

(** X13.  A login returns a user only when every check passed: the user
    returned is the row with the email typed (trimmed, lowercased)
    stamped with the time of the login, that row is active, its company
    is active, and [verify_password] accepted the password typed against
    the stored hash. *)
Theorem fazer_login_so_autentica (s s' : Sessao) (linha_email senha : string)
    (agora : DateTime) (u' : Usuario.t) :
  fazer_login verify_password linha_email senha agora s
  = (Val (Devolve u'), s') ->
  exists u empresa,
    find (fun x => (Usuario.email x
                    =? Py.lower (Py.strip linha_email))%string)
         (usuarios (banco s)) = Some u
    /\ u' = marca_login agora u
    /\ Usuario.ativo u = true
    /\ empresa_de (banco s) u = Some empresa
    /\ Empresa.ativa empresa = true
    /\ verify_password senha (Usuario.senha_hash u) = true.
Proof.
  unfold fazer_login. rewrite bind_consulta.
  destruct (find _ (usuarios (banco s))) as [u|] eqn:Hfind; [|discriminate].
  destruct (Usuario.ativo u) eqn:Hat; simpl; [|discriminate].
  destruct (empresa_de (banco s) u) as [empresa|] eqn:Hemp; [|discriminate].
  destruct (Empresa.ativa empresa) eqn:Hea; simpl; [|discriminate].
  destruct (verify_password senha (Usuario.senha_hash u)) eqn:Hvp; simpl;
    [|discriminate].
  unfold bind, commit, ret.
  destruct (falhas s) as [|[|] fs]; intros [= <- <-];
    exists u, empresa; repeat split; assumption.
Qed.

End Acesso.

Lemma cadastrar_usuario_integro_exemplo :
  integro (banco (snd (cadastrar_usuario Exemplo.hashpw Exemplo.entrada_rita
                         50 (sem_falhas Exemplo.db)))).
Proof.
  apply (cadastrar_usuario_integro Exemplo.hashpw (sem_falhas Exemplo.db) _
           Exemplo.entrada_rita 50
           (fst (cadastrar_usuario Exemplo.hashpw Exemplo.entrada_rita 50
                   (sem_falhas Exemplo.db)))).
  - exact integro_exemplo.
  - apply surjective_pairing.
Defined.

Lemma fazer_login_integro_exemplo :
  integro (banco (snd (fazer_login Exemplo.confere " Ana@acme.com " "segredo"
                         99 (sem_falhas Exemplo.db)))).
Proof.
  apply (fazer_login_integro Exemplo.confere (sem_falhas Exemplo.db) _
           " Ana@acme.com " "segredo" 99
           (fst (fazer_login Exemplo.confere " Ana@acme.com " "segredo" 99
                   (sem_falhas Exemplo.db)))).
  - exact integro_exemplo.
  - apply surjective_pairing.
Defined.

Lemma fazer_login_so_autentica_exemplo :
  exists u empresa,
    find (fun x => (Usuario.email x
                    =? Py.lower (Py.strip " Ana@acme.com "))%string)
         (usuarios Exemplo.db) = Some u
    /\ marca_login 99 Exemplo.ana = marca_login 99 u
    /\ Usuario.ativo u = true
    /\ empresa_de Exemplo.db u = Some empresa
    /\ Empresa.ativa empresa = true
    /\ Exemplo.confere "segredo" (Usuario.senha_hash u) = true.
Proof.
  apply (fazer_login_so_autentica Exemplo.confere (sem_falhas Exemplo.db)
           (sem_falhas (atualiza_login Exemplo.db Exemplo.ana 99))
           " Ana@acme.com " "segredo" 99 (marca_login 99 Exemplo.ana)).
  vm_compute. reflexivity.
Defined.

Section PrimeiroAcesso.

Variable bcrypt_hashpw : list Byte.byte -> list Byte.byte -> list Byte.byte.
Variable verify_password : string -> string -> bool.

(** X14.  What a successful registration leaves, on any session: exactly
    one user row more, at the end of the table, which is the user
    returned; its id and its email are new to the table; the email is the
    line typed, trimmed and lowercased, the name the line typed, trimmed;
    the user is active and has never logged in; the company is the row
    found under the number typed; the companies and the grants of every
    other user are as before; and unless the operator asked for the
    permission prompt of a non-administrator, nothing else changed. *)
Theorem cadastrar_usuario_novo (s s' : Sessao) (e : EntradaUsuario)
    (agora : DateTime) (u : Usuario.t) :
  cadastrar_usuario bcrypt_hashpw e agora s = (Val (Devolve u), s') ->
  usuarios (banco s') = (usuarios (banco s) ++ [u])%list
  /\ empresas (banco s') = empresas (banco s)
  /\ ~ In (Usuario.id u) (map Usuario.id (usuarios (banco s)))
  /\ ~ In (Usuario.email u) (map Usuario.email (usuarios (banco s)))
  /\ Usuario.email u = Py.lower (Py.strip (linha_email e))
  /\ Usuario.nome u = Py.strip (linha_nome e)
  /\ Usuario.ativo u = true
  /\ Usuario.ultimo_login u = None
  /\ Usuario.is_admin u = responde_S (linha_admin e)
  /\ (exists c, Py.int (linha_empresa_id e) = Some (Empresa.id c)
                /\ empresa_de (banco s') u = Some c)
  /\ (forall v, Usuario.id v <> Usuario.id u ->
                ids_concedidos (banco s') v = ids_concedidos (banco s) v)
  /\ (Usuario.is_admin u = true \/ responde_S (linha_configurar e) = false ->
      banco s' = add_usuario (banco s) u).
Proof.
  intros Hrun. apply cadastrar_usuario_banco in Hrun.
  destruct Hrun as [[_ Hno]|[empresa H]]; [destruct (Hno u eq_refl)|].
  cbv zeta in H. destruct H as (Hin & (n & Hint & Hfind) & Hnovo & Hu & Hfim).
  specialize (Hu u eq_refl). rewrite <- Hu in Hnovo, Hfim. clear Hin.
  assert (Hn : n = Empresa.id empresa).
  { apply find_some in Hfind as [_ H]. apply Z.eqb_eq in H. congruence. }
  assert (Hid : ~ In (Usuario.id u) (map Usuario.id (usuarios (banco s)))).
  { rewrite Hu. apply proximo_id_novo. }
  assert (Hemp : empresa_de (add_usuario (banco s) u) u = Some empresa).
  { unfold empresa_de. simpl empresas. rewrite <- Hfind, Hn, Hu.
    reflexivity. }
  assert (Hfim' :
    usuarios (banco s') = usuarios (add_usuario (banco s) u)
    /\ empresas (banco s') = empresas (add_usuario (banco s) u)
    /\ (forall v, Usuario.id v <> Usuario.id u ->
                  ids_concedidos (banco s') v
                  = ids_concedidos (add_usuario (banco s) u) v)
    /\ (Usuario.is_admin u = true \/ responde_S (linha_configurar e) = false
        -> banco s' = add_usuario (banco s) u)).
  { destruct Hfim as [->|(Hadm & Hcf & fs & r2 & Hconf)].
    - repeat split.
    - apply configurar_moldura in Hconf as (E & U & _ & G). simpl banco in *.
      repeat split; auto.
      + intros v Hv. apply G. simpl. congruence.
      + intros [H|H]; congruence. }
  destruct Hfim' as (U & E & G & Hso).
  repeat split; auto; try (rewrite Hu; reflexivity).
  exists empresa. split; [congruence|].
  unfold empresa_de in *. rewrite E. exact Hemp.
Qed.

(** After a registration that returned [u], the row a login finds under
    the email line of the registration is [u]. *)
Lemma login_acha_o_cadastrado (s s' : Sessao) (e : EntradaUsuario)
    (agora : DateTime) (u : Usuario.t) :
  cadastrar_usuario bcrypt_hashpw e agora s = (Val (Devolve u), s') ->
  find (fun x => (Usuario.email x
                  =? Py.lower (Py.strip (linha_email e)))%string)
       (usuarios (banco s')) = Some u
  /\ Usuario.ativo u = true
  /\ Usuario.senha_hash u
     = hash_password bcrypt_hashpw (linha_senha e) (sal e)
  /\ empresas (banco s') = empresas (banco s)
  /\ exists c, Py.int (linha_empresa_id e) = Some (Empresa.id c)
               /\ empresa_de (banco s') u = Some c.
Proof.
  intros Hrun. apply cadastrar_usuario_banco in Hrun.
  destruct Hrun as [[_ Hno]|[empresa H]]; [destruct (Hno u eq_refl)|].
  cbv zeta in H. destruct H as (Hin & (n & Hint & Hfind) & Hnovo & Hu & Hfim).
  specialize (Hu u eq_refl). rewrite <- Hu in Hnovo, Hfim. clear Hin.
  assert (Hn : n = Empresa.id empresa).
  { apply find_some in Hfind as [_ H]. apply Z.eqb_eq in H. congruence. }
  assert (Hemp : empresa_de (add_usuario (banco s) u) u = Some empresa).
  { unfold empresa_de. simpl empresas. rewrite <- Hfind, Hn, Hu.
    reflexivity. }
  assert (Hfim' :
    usuarios (banco s') = usuarios (add_usuario (banco s) u)
    /\ empresas (banco s') = empresas (add_usuario (banco s) u)).
  { destruct Hfim as [->|(Hadm & Hcf & fs & r2 & Hconf)].
    - repeat split.
    - apply configurar_moldura in Hconf as (E & U & _ & G). simpl banco in *.
      split; assumption. }
  destruct Hfim' as (U & E).
  split; [|split; [rewrite Hu; reflexivity|
                   split; [rewrite Hu; reflexivity|split; [exact E|]]]].
  - rewrite U. simpl usuarios. rewrite find_app, find_nenhum.
    + simpl. rewrite Hu at 1. simpl. rewrite String.eqb_refl. reflexivity.
    + intros x Hx. apply String.eqb_neq. intros Heq. apply Hnovo.
      rewrite Hu. simpl. rewrite <- Heq. apply in_map. exact Hx.
  - exists empresa. split; [congruence|].
    unfold empresa_de in *. rewrite E. exact Hemp.
Qed.

(** X15.  The registration accepts an inactive company, but the user it
    creates cannot log in: after a registration that returned a user whose
    company is inactive, a login with the email line of the registration
    is refused as company inactive, whatever the password typed and
    whatever [verify_password] answers, and it changes nothing. *)
Theorem cadastrado_em_empresa_inativa_nao_entra (s s' : Sessao)
    (e : EntradaUsuario) (agora agora' : DateTime) (u : Usuario.t)
    (c : Empresa.t) (senha : string) :
  cadastrar_usuario bcrypt_hashpw e agora s = (Val (Devolve u), s') ->
  empresa_de (banco s') u = Some c ->
  Empresa.ativa c = false ->
  fazer_login verify_password (linha_email e) senha agora' s'
  = (Val (Nada EmpresaInativa), s').
Proof.
  intros Hrun Hemp Hat.
  destruct (login_acha_o_cadastrado _ _ _ _ _ Hrun) as (Hfind & Hu & _).
  unfold fazer_login. rewrite bind_consulta, Hfind, Hu. simpl.
  rewrite Hemp, Hat. reflexivity.
Qed.

(** X16.  A user registered for an active company logs in at once with
    the email line and the password of the registration, provided
    [verify_password] accepts a password against [hash_password] of it and
    the commit of the login goes through: the login returns that user,
    stamped with the time of the login. *)
Theorem cadastrado_entra (s s' : Sessao) (e : EntradaUsuario)
    (agora agora' : DateTime) (u : Usuario.t) (c : Empresa.t) :
  cadastrar_usuario bcrypt_hashpw e agora s = (Val (Devolve u), s') ->
  empresa_de (banco s') u = Some c ->
  Empresa.ativa c = true ->
  verify_password (linha_senha e)
    (hash_password bcrypt_hashpw (linha_senha e) (sal e)) = true ->
  hd false (falhas s') = false ->
  fazer_login verify_password (linha_email e) (linha_senha e) agora' s'
  = (Val (Devolve (marca_login agora' u)),
     mkSessao (atualiza_login (banco s') u agora') (tl (falhas s'))).
Proof.
  intros Hrun Hemp Hat Hvp Hok.
  destruct (login_acha_o_cadastrado _ _ _ _ _ Hrun)
    as (Hfind & Hu & Hhash & _).
  unfold fazer_login. rewrite bind_consulta, Hfind, Hu. simpl.
  rewrite Hemp, Hat, Hhash, Hvp. simpl.
  unfold bind, commit, ret. revert Hok.
  destruct (falhas s') as [|[|] fs]; simpl; try reflexivity. discriminate.
Qed.

End PrimeiroAcesso.

Lemma cadastrar_usuario_novo_exemplo :
  exists u s',
    cadastrar_usuario Exemplo.hashpw Exemplo.entrada_rita 50
      (sem_falhas Exemplo.db) = (Val (Devolve u), s')
    /\ usuarios (banco s') = (usuarios Exemplo.db ++ [u])%list
    /\ Usuario.email u = "rita@acme.com"
    /\ ids_concedidos (banco s') Exemplo.ana = [1; 4].
Proof.
  destruct (cadastrar_usuario Exemplo.hashpw Exemplo.entrada_rita 50
              (sem_falhas Exemplo.db)) as [r s'] eqn:Hrun.
  pose proof Hrun as Hval. vm_compute in Hval.
  injection Hval as Hr _. subst r.
  eexists _, s'. split; [reflexivity|].
  destruct (cadastrar_usuario_novo Exemplo.hashpw _ _ _ _ _ Hrun)
    as (Hus & _ & _ & _ & Hemail & _ & _ & _ & _ & _ & Hout & _).
  split; [exact Hus|]. split; [exact Hemail|].
  apply (Hout Exemplo.ana). discriminate.
Defined.

Lemma cadastrado_em_empresa_inativa_nao_entra_exemplo :
  fazer_login (fun _ _ => true) "Maria@Acme.com" "abc123" 60
    (snd (cadastrar_usuario Exemplo.hashpw (Exemplo.entrada_maria "2") 50
            (sem_falhas Exemplo.db)))
  = (Val (Nada EmpresaInativa),
     snd (cadastrar_usuario Exemplo.hashpw (Exemplo.entrada_maria "2") 50
            (sem_falhas Exemplo.db))).
Proof.
  destruct (cadastrar_usuario Exemplo.hashpw (Exemplo.entrada_maria "2") 50
              (sem_falhas Exemplo.db)) as [r s'] eqn:Hrun.
  pose proof Hrun as Hval. vm_compute in Hval.
  injection Hval as Hr Hs. subst r. simpl snd.
  apply (cadastrado_em_empresa_inativa_nao_entra Exemplo.hashpw
           (fun _ _ => true) _ _ (Exemplo.entrada_maria "2") 50 60 _
           Exemplo.parada "abc123" Hrun).
  - rewrite <- Hs. vm_compute. reflexivity.
  - reflexivity.
Defined.

Lemma cadastrado_entra_exemplo :
  exists u,
    fazer_login (fun senha hash => (hash =? "sal:" ++ senha)%string)
      "Maria@Acme.com" "abc123" 60
      (snd (cadastrar_usuario Exemplo.hashpw (Exemplo.entrada_maria "1") 50
              (sem_falhas Exemplo.db)))
    = (Val (Devolve (marca_login 60 u)),
       mkSessao
         (atualiza_login
            (banco (snd (cadastrar_usuario Exemplo.hashpw
                           (Exemplo.entrada_maria "1") 50
                           (sem_falhas Exemplo.db)))) u 60) [])
    /\ Usuario.email u = "maria@acme.com".
Proof.
  destruct (cadastrar_usuario Exemplo.hashpw (Exemplo.entrada_maria "1") 50
              (sem_falhas Exemplo.db)) as [r s'] eqn:Hrun.
  pose proof Hrun as Hval. vm_compute in Hval.
  injection Hval as Hr Hs. subst r. simpl snd.
  assert (Hfs : tl (falhas s') = []) by (rewrite <- Hs; reflexivity).
  rewrite <- Hfs.
  eexists. split.
  - apply (cadastrado_entra Exemplo.hashpw
             (fun senha hash => (hash =? "sal:" ++ senha)%string)
             _ _ (Exemplo.entrada_maria "1") 50 60 _ Exemplo.acme Hrun).
    + rewrite <- Hs. vm_compute. reflexivity.
    + reflexivity.
    + vm_compute. reflexivity.
    + rewrite <- Hs. reflexivity.
  - reflexivity.
Defined.

(** ** What an assignment means for the access checks *)

Lemma exibir_menu_ext (db db' : Db) (u : Usuario.t) :
  empresa_de db' u = empresa_de db u ->
  (forall c, tem_permissao db' u c = tem_permissao db u c) ->
  exibir_menu_principal db' (Some u) = exibir_menu_principal db (Some u).
Proof.
  intros He Ht. unfold exibir_menu_principal, verificar_permissao.
  rewrite He. destruct (empresa_de db u); [|reflexivity].
  cbv zeta. rewrite !Ht. reflexivity.
Qed.





(** ** Seeding and the access checks *)

Lemma semeia_ids_novos (cat : list (string * string * string)) (db : Db) :
  exists novas,
    fold_left semeia cat db
    = mkDb (empresas db) (usuarios db) (permissoes db ++ novas)
           (usuario_permissoes db)
    /\ forall p, In p novas ->
                 ~ In (Permissao.id p) (map Permissao.id (permissoes db)).
Proof.
  revert db. induction cat as [|x r IH]; intros db.
  - exists []. simpl. rewrite app_nil_r. destruct db. split; [reflexivity|].
    intros p [].
  - simpl. destruct (IH (semeia db x)) as (novas1 & Hfold & Hnovas).
    rewrite Hfold. destruct x as [[c n] d]. unfold semeia in *.
    destruct (find _ (permissoes db)).
    + exists novas1. split; [reflexivity|exact Hnovas].
    + simpl in *. eexists (_ :: novas1). split.
      * rewrite <- app_assoc. reflexivity.
      * intros p [<-|Hp]; simpl.
        -- apply proximo_id_novo.
        -- intros Hin. apply (Hnovas p Hp). rewrite map_app.
           apply in_or_app. left. exact Hin.
Qed.

Lemma flat_map_ext_in {A B} (f g : A -> list B) (l : list A) :
  (forall a, In a l -> f a = g a) -> flat_map f l = flat_map g l.
Proof.
  induction l as [|a r IH]; intros H; simpl; [reflexivity|].
  rewrite (H a (or_introl eq_refl)), IH; [reflexivity|].
  intros b Hb. apply H. right. exact Hb.
Qed.

Lemma permissoes_de_semeado (db : Db) (u : Usuario.t) :
  integro db -> permissoes_de (semeado db) u = permissoes_de db u.
Proof.
  intros Hdb. destruct (semeia_ids_novos permissoes_padrao db)
    as (novas & Hfold & Hnovas).
  unfold permissoes_de, semeado, ids_concedidos. rewrite Hfold. simpl.
  apply flat_map_ext_in. intros pid Hpid.
  rewrite filter_app.
  assert (Hnone : filter (fun p => Permissao.id p =? pid) novas = []).
  { apply in_map_iff in Hpid as (r & Hr & Hin).
    apply filter_In in Hin as [Hin _].
    apply (fk_usuario_permissoes db Hdb) in Hin as [_ Hfk].
    rewrite Hr in Hfk. clear - Hfk Hnovas.
    induction novas as [|p ps IH]; [reflexivity|]. simpl.
    destruct (Z.eqb_spec (Permissao.id p) pid) as [Heq|_].
    - exfalso. apply (Hnovas p (or_introl eq_refl)). rewrite Heq. exact Hfk.
    - apply IH. intros q Hq. apply Hnovas. right. exact Hq. }
  rewrite Hnone. apply app_nil_r.
Qed.

(** X18.  Seeding the catalog gives nobody access and takes nobody's
    away: on a store that meets the constraints of the schema, after
    [criar_permissoes_padrao], whether its commit failed or not, every
    user passes the access check for the codes passed before, and is
    offered the menu offered before. *)
Theorem criar_permissoes_padrao_nao_muda_acesso (s s' : Sessao)
    (r : Res unit) (u : Usuario.t) :
  integro (banco s) ->
  criar_permissoes_padrao s = (r, s') ->
  (forall c, tem_permissao (banco s') u c = tem_permissao (banco s) u c)
  /\ exibir_menu_principal (banco s') (Some u)
     = exibir_menu_principal (banco s) (Some u).
Proof.
  intros Hdb. unfold criar_permissoes_padrao.
  rewrite bind_consulta. unfold commit.
  assert (Ht : forall c, tem_permissao (semeado (banco s)) u c
                         = tem_permissao (banco s) u c).
  { intros c. unfold tem_permissao.
    rewrite (permissoes_de_semeado _ _ Hdb). reflexivity. }
  assert (He : empresa_de (semeado (banco s)) u = empresa_de (banco s) u).
  { unfold empresa_de. rewrite (proj1 (semeado_so_catalogo (banco s))).
    reflexivity. }
  destruct (falhas s) as [|[|] fs]; intros [= <- <-]; simpl;
    (split; [|apply exibir_menu_ext]); auto.
Qed.

Lemma criar_permissoes_padrao_nao_muda_acesso_exemplo :
  (forall c,
     tem_permissao
       (banco (snd (criar_permissoes_padrao
                      (sem_falhas Exemplo.db_sem_catalogo)))) Exemplo.ana c
     = tem_permissao Exemplo.db_sem_catalogo Exemplo.ana c)
  /\ exibir_menu_principal
       (banco (snd (criar_permissoes_padrao
                      (sem_falhas Exemplo.db_sem_catalogo))))
       (Some Exemplo.ana)
     = exibir_menu_principal Exemplo.db_sem_catalogo (Some Exemplo.ana).
Proof.
  apply (criar_permissoes_padrao_nao_muda_acesso
           (sem_falhas Exemplo.db_sem_catalogo) _
           (fst (criar_permissoes_padrao
                   (sem_falhas Exemplo.db_sem_catalogo)))).
  - constructor; simpl.
    all: try (repeat constructor; simpl; intuition discriminate).
    intros u Hu. cada_usuario Hu; simpl; auto.
  - apply surjective_pairing.
Defined.

(** ** What the constraints rule out *)




Section SemAttributeError.

Variable bcrypt_hashpw : list Byte.byte -> list Byte.byte -> list Byte.byte.
Variable verify_password : string -> string -> bool.





End SemAttributeError.




(** ** From an empty installation to the first login *)

Section Implantacao.

Variable bcrypt_hashpw : list Byte.byte -> list Byte.byte -> list Byte.byte.
Variable verify_password : string -> string -> bool.



End Implantacao.

